(** * HTTP compression benchmark (index.js): a shallow embedding

    The benchmark fetches a text payload, serves it from a throwaway
    Express server once per codec, requests it back with a single
    accepted encoding and tabulates sizes, ratio and time.  The
    embedding keeps the functions of index.js under their own names.

    JavaScript numbers are modelled by exact rationals (and integers
    where the source only has lengths and ports): rounding of IEEE
    doubles is outside the model.  A string is a sequence of
    characters and [s.length] their number.

    What the program does not decide itself (random numbers, the
    clock, the network, which ports are free) is read from an
    environment [Env]; what it does to the outside (console output,
    listening sockets, requests) is recorded in a [World].  Awaited
    promises are run in sequence in a state and error monad [M]. *)

From Stdlib Require Import ZArith QArith Qround Qabs Lia Lqa.
From stdpp Require Import base gmap strings list pretty.
From Equations Require Import Equations.

Local Open Scope string_scope.
Local Open Scope Z_scope.
Local Open Scope list_scope.

(** ** JavaScript numbers and their printing *)

Module JS.

(** The result of a JavaScript division. *)
Inductive Number :=
  | Finite (q : Q)
  | NaN
  | Infinity (negative : bool).

(** [a / b] on finite operands. *)
Definition div (a b : Q) : Number :=
  if Qeq_bool b 0 then
    if Qeq_bool a 0 then NaN else Infinity (if Qlt_le_dec a 0 then true else false)
  else Finite (a / b)%Q.

(** [x * c] for a positive finite constant [c]. *)
Definition scale (x : Number) (c : Q) : Number :=
  match x with
  | Finite q => Finite (q * c)%Q
  | other => other
  end.

(** The integer [n] of [Number.prototype.toFixed]: the one for which
    [n / 100 - x] is closest to zero, the larger one on a tie
    ([x] not negative).  Here [x] is the exact value of the
    expression.  The engine rounds the double that holds it, which is
    a hair away from [x]: where [x * 100] falls exactly halfway between
    two integers the engine may print the smaller one (1.005 prints as
    '1.00').  Away from such ties both agree. *)
Definition hundredths (x : Q) : Z := Qfloor (x * 100 + (1 # 2))%Q.

Definition two_digits (d : Z) : string :=
  if d <? 10 then "0" +:+ pretty d else pretty d.

(** The digits of [n] with a decimal point before the last two. *)
Definition fixed2_digits (n : Z) : string :=
  pretty (n / 100) +:+ "." +:+ two_digits (n mod 100).

(** [x.toFixed(2)] for finite [x] below 10^21 in magnitude. *)
Definition toFixed2_Q (x : Q) : string :=
  if Qlt_le_dec x 0
  then "-" +:+ fixed2_digits (hundredths (- x)%Q)
  else fixed2_digits (hundredths x).

(** [x.toFixed(2)]. *)
Definition toFixed2 (x : Number) : string :=
  match x with
  | Finite q => toFixed2_Q q
  | NaN => "NaN"
  | Infinity true => "-Infinity"
  | Infinity false => "Infinity"
  end.

(** String conversion of the number [n / 100] for [0 <= n]: the shortest
    decimal, which is what [parseFloat(s) + ' '] prints after
    [s = x.toFixed(2)]. *)
Definition string_of_hundredths (n : Z) : string :=
  let i := n / 100 in
  let f := n mod 100 in
  if f =? 0 then pretty i
  else if f mod 10 =? 0 then pretty i +:+ "." +:+ pretty (f / 10)
  else pretty i +:+ "." +:+ two_digits f.

(** [xs[i]] for an integer-valued index: [undefined] out of range. *)
Definition index {A} (xs : list A) (i : Z) : option A :=
  if i <? 0 then None else xs !! Z.to_nat i.

(** String conversion of a possibly undefined string. *)
Definition string_of (v : option string) : string :=
  match v with
  | Some s => s
  | None => "undefined"
  end.

(** [v || d] on a possibly undefined string: the empty string is falsy. *)
Definition or_else (v : option string) (d : string) : string :=
  match v with
  | Some s => if decide (s = "") then d else s
  | None => d
  end.

End JS.

(** ** formatBytes *)

Definition sizes : list string := ["Bytes"; "KB"; "MB"; "GB"].

(** [Math.floor(Math.log(bytes) / Math.log(k))] for [k = 1024] and an
    integer [bytes >= 1]: the integer logarithm to base 2^10. *)
Definition unit_index (bytes : Z) : Z := Z.log2 bytes / 10.

(** [formatBytes] on an integer.  A negative argument makes every
    intermediate number NaN. *)
Definition formatBytes (bytes : Z) : string :=
  if bytes =? 0 then "0 Bytes"
  else if bytes <? 0 then "NaN undefined"
  else
    let k := 1024 in
    let i := unit_index bytes in
    JS.string_of_hundredths (JS.hundredths (inject_Z bytes / inject_Z (k ^ i))%Q)
      +:+ " " +:+ JS.string_of (JS.index sizes i).

(** ** The world the program runs in *)

Record Error := { message : string }.

(** An axios response: the header object and the body. *)
Record Response (A : Type) := { headers : gmap string string; data : A }.
Arguments headers {A} _.
Arguments data {A} _.

(** A Node [Buffer]. *)
Abbreviation Buffer := (list Byte.byte).

(** The object built at the end of [testCompression]. *)
Record Result := {
  algorithm : string;
  originalSize : string;
  compressedSize : string;
  compressionRatio : string;
  timeTaken : string;
  savingsInMB : string }.

(** What the process does that can be seen from outside, oldest first. *)
Inductive Event :=
  | EvLog (args : list string)                       (* console.log *)
  | EvError (args : list string)                     (* console.error *)
  | EvTable (rows : list Result)                     (* console.table *)
  | EvFetch (url : string)                           (* axios.get of a remote source *)
  | EvListen (codec testData : string) (port : Z) (bound : bool)
                                                     (* app.listen of the app serving testData *)
  | EvRequest (port : Z) (accept_encoding : string)  (* axios.get of the local route *)
  | EvClose (port : Z).                              (* server.close *)

(** Everything the program does not decide itself.  Each answer may
    depend on [tick], the number of questions asked before. *)
Record Env := {
  (* Math.random() *)
  Math_random : nat → Q;
  (* nanoseconds an interaction takes *)
  elapsed : nat → N;
  (* axios.get of a url *)
  remote_get : nat → string → Error + Response string;
  (* the bind error, when another process holds the port *)
  port_in_use : nat → Z → option Error;
  (* axios.get of the local route: port, Accept-Encoding, payload served *)
  local_get : nat → Z → string → string → Error + Response Buffer }.

Record World := {
  tick : nat;
  clock : N;                  (* monotonic clock of process.hrtime, in ns *)
  listening : gset Z;         (* ports this process listens on *)
  trace : list Event }.

(** How a computation ends: a value, a thrown error (a rejected
    promise), or an 'error' event on an emitter without a listener,
    after which no promise of the program is settled any more. *)
Inductive Outcome (A : Type) :=
  | Ok (a : A)
  | Throw (e : Error)
  | Unhandled (e : Error).
Arguments Ok {A} _.
Arguments Throw {A} _.
Arguments Unhandled {A} _.

Definition M (A : Type) : Type := World → Outcome A * World.

Definition ret {A} (a : A) : M A := fun w => (Ok a, w).

Definition bind {A B} (m : M A) (f : A → M B) : M B :=
  fun w =>
    match m w with
    | (Ok a, w') => f a w'
    | (Throw e, w') => (Throw e, w')
    | (Unhandled e, w') => (Unhandled e, w')
    end.

Definition throw {A} (e : Error) : M A := fun w => (Throw e, w).

(** [try { m } catch (e) { h e }] *)
Definition try_catch {A} (m : M A) (h : Error → M A) : M A :=
  fun w =>
    match m w with
    | (Throw e, w') => h e w'
    | other => other
    end.

(** [try { m } finally { f }] where [f] does not throw. *)
Definition try_finally {A} (m : M A) (f : M unit) : M A :=
  fun w =>
    match m w with
    | (Unhandled e, w') => (Unhandled e, w')
    | (o, w') => (o, snd (f w'))
    end.

#[global] Instance M_ret : MRet M := @ret.
#[global] Instance M_bind : MBind M := λ A B f m, bind m f.

Section Program.
Variable env : Env.

(** One question to the environment: time passes and the tick advances. *)
Definition ask : M nat :=
  fun w =>
    (Ok (tick w),
     {| tick := S (tick w); clock := (clock w + elapsed env (tick w))%N;
        listening := listening w; trace := trace w |}).

Definition emit (e : Event) : M unit :=
  fun w =>
    (Ok tt,
     {| tick := tick w; clock := clock w; listening := listening w;
        trace := trace w ++ [e] |}).

Definition set_listening (f : gset Z → gset Z) : M unit :=
  fun w =>
    (Ok tt,
     {| tick := tick w; clock := clock w; listening := f (listening w);
        trace := trace w |}).

Definition random : M Q := t ← ask; mret (Math_random env t).

Definition console_log (args : list string) : M unit := emit (EvLog args).
Definition console_error (args : list string) : M unit := emit (EvError args).
Definition console_table (rows : list Result) : M unit := emit (EvTable rows).

(** ** generateCompressedTestData *)

Definition words : list string := [
  "the"; "be"; "to"; "of"; "and"; "a"; "in"; "that"; "have"; "I";
  "Shakespeare"; "Hamlet"; "Macbeth"; "Romeo"; "Juliet"; "Othello";
  "wherefore"; "thou"; "thy"; "thee"; "hast"; "doth"; "forsooth" ].

Definition newline : string := String (Ascii.ascii_of_nat 10) "".

(** The body of the while loop, given its two random draws. *)
Definition generate_body (result : string) (r1 r2 : Q) : string :=
  let word := JS.index words (Qfloor (r1 * inject_Z (Z.of_nat (length words)))%Q) in
  let result := result +:+ (JS.string_of word +:+ " ") in
  if Qlt_le_dec r2 (1 # 10) then result +:+ newline else result.

(** One iteration: draw, draw, append. *)
Definition generate_iter (result : string) (w : World) : string * World :=
  let w1 := snd (ask w) in
  let w2 := snd (ask w1) in
  (generate_body result (Math_random env (tick w)) (Math_random env (tick w1)), w2).

Equations? generate_loop (size : Z) (result : string) (w : World) : string * World
  by wf (Z.to_nat (size - Z.of_nat (String.length result))) lt :=
  generate_loop size result w with Z_lt_dec (Z.of_nat (String.length result)) size := {
    | left _ := generate_loop size (fst (generate_iter result w)) (snd (generate_iter result w));
    | right _ := (result, w) }.
Proof.
  assert (Happ : ∀ s1 s2 : string,
            String.length (s1 +:+ s2) = (String.length s1 + String.length s2)%nat)
    by (induction s1 as [|c s1 IH]; intros s2; simpl; [| rewrite IH]; reflexivity).
  unfold generate_iter, generate_body; cbn [fst snd].
  destruct (Qlt_le_dec _ _); rewrite !Happ; cbn [String.length]; lia.
Qed.

Definition generateCompressedTestData (size : Z) : M string :=
  fun w => let '(result, w') := generate_loop size "" w in (Ok result, w').

(** ** fetchTestData *)

Definition urls : list string := [
  "https://www.gutenberg.org/files/100/100-0.txt";
  "https://www.gutenberg.org/cache/epub/100/pg100.txt" ].

(** [axios.get(url, { headers, timeout: 10000 })]: a timeout is one of
    the errors. *)
Definition axios_get_remote (url : string) : M (Response string) :=
  emit (EvFetch url);;
  t ← ask;
  match remote_get env t url with
  | inl e => throw e
  | inr response => mret response
  end.

(** The for loop over the urls: the first source that answers wins. *)
Fixpoint fetch_from (sources : list string) : M string :=
  match sources with
  | [] => throw {| message := "All data sources failed" |}
  | url :: rest =>
      try_catch
        (response ← axios_get_remote url; mret (data response))
        (λ e,
          console_log ["Failed to fetch from " +:+ url +:+ ", trying next source..."];;
          fetch_from rest)
  end.

Definition fetchTestData : M string :=
  try_catch
    (fetch_from urls)
    (λ error,
      console_error ["Error fetching test data:"; message error];;
      generateCompressedTestData (5 * 1024 * 1024)).

(** ** testCompression *)

(** [process.hrtime()]: seconds and nanoseconds of the monotonic clock. *)
Definition hrtime : M (Z * Z) :=
  fun w => (Ok (Z.of_N (clock w) / 10 ^ 9, Z.of_N (clock w) mod 10 ^ 9), w).

(** [process.hrtime(start)]: the time since [start], nanoseconds
    normalised into [0, 10^9). *)
Definition hrtime_since (start : Z * Z) : M (Z * Z) :=
  fun w =>
    let s := Z.of_N (clock w) / 10 ^ 9 - fst start in
    let ns := Z.of_N (clock w) mod 10 ^ 9 - snd start in
    (Ok (if ns <? 0 then (s - 1, ns + 10 ^ 9) else (s, ns)), w).

Definition EADDRINUSE (port : Z) : Error :=
  {| message := "listen EADDRINUSE: address already in use :::" +:+ pretty port |}.

(** [app.listen(port, callback)] up to the point where the callback
    starts.  Express is not part of the repository and index.js does
    not say which version it runs on; this is the reading of Express 4,
    where [app.listen] is Node's [server.listen]: the callback runs
    once the server is listening, and a failed bind is an 'error' event
    on the server, for which index.js registers no listener.  (Express
    5 hands the error to the callback instead, which index.js would
    ignore.)  What follows a failed bind therefore depends on this
    reading; what follows a successful one does not. *)
Definition app_listen (codec testData : string) (port : Z) : M unit :=
  fun w =>
    let '(_, w1) := ask w in
    let failure :=
      if decide (port ∈ listening w) then Some (EADDRINUSE port)
      else port_in_use env (tick w) port in
    match failure with
    | Some e => (Unhandled e, snd (emit (EvListen codec testData port false) w1))
    | None =>
        (emit (EvListen codec testData port true);;
         set_listening (λ ports, {[port]} ∪ ports)) w1
    end.

(** [server.close()]: the listening socket is given up at once. *)
Definition server_close (port : Z) : M unit :=
  emit (EvClose port);;
  set_listening (λ ports, ports ∖ {[port]}).

(** [axios.get(`http://localhost:${port}/test`, ...)] with
    [responseType: 'arraybuffer'] and [decompress: false], against the
    app that serves [testData]. *)
Definition axios_get_local (port : Z) (accept_encoding testData : string)
  : M (Response Buffer) :=
  emit (EvRequest port accept_encoding);;
  t ← ask;
  match local_get env t port accept_encoding testData with
  | inl e => throw e
  | inr response => mret response
  end.

(** [(endTime[0] * 1000 + endTime[1] / 1000000)] *)
Definition milliseconds (endTime : Z * Z) : Q :=
  (inject_Z (fst endTime) * 1000 + inject_Z (snd endTime) / 1000000)%Q.

(** The object literal [result]. *)
Definition make_result (testData : string) (response : Response Buffer)
    (duration : string) : Result :=
  let testData_length := inject_Z (Z.of_nat (String.length testData)) in
  let data_length := inject_Z (Z.of_nat (length (data response))) in
  {| algorithm := JS.or_else (headers response !! "content-encoding") "none";
     originalSize := formatBytes (Z.of_nat (String.length testData));
     compressedSize := formatBytes (Z.of_nat (length (data response)));
     compressionRatio :=
       JS.toFixed2 (JS.scale (JS.div (testData_length - data_length) testData_length) 100)
         +:+ "%";
     timeTaken := duration +:+ "ms";
     savingsInMB :=
       JS.toFixed2_Q ((testData_length - data_length) / (1024 * 1024))%Q +:+ " MB" |}.

(** The callback given to [app.listen]: try, catch, finally. *)
Definition on_listening (algorithm testData : string) (port : Z) : M Result :=
  try_finally
    (try_catch
      (startTime ← hrtime;
       console_log [newline +:+ "Testing " +:+ algorithm +:+ " compression:"];;
       console_log ["Original content size:";
                    formatBytes (Z.of_nat (String.length testData))];;
       response ← axios_get_local port algorithm testData;
       endTime ← hrtime_since startTime;
       let duration := JS.toFixed2_Q (milliseconds endTime) in
       mret (make_result testData response duration))
      (λ error,
        console_error ["Error:"; message error];;
        throw error))
    (server_close port).

Definition testCompression (algorithm testData : string) : M Result :=
  r ← random;
  let port := 3000 + Qfloor (r * 1000)%Q in
  app_listen algorithm testData port;;
  on_listening algorithm testData port.

(** ** compareCompressions *)

(** The three pushes inside the try block. *)
Definition run_codecs (testData : string) : M (list Result) :=
  let results : list Result := [] in
  r ← testCompression "gzip" testData; let results := (results ++ [r])%list in
  r ← testCompression "deflate" testData; let results := (results ++ [r])%list in
  r ← testCompression "br" testData; let results := (results ++ [r])%list in
  mret results.

(** What [compareCompressions] does once it holds the test data. *)
Definition compare_with (testData : string) : M unit :=
  console_log ["Fetched " +:+ formatBytes (Z.of_nat (String.length testData))
                 +:+ " of test data"];;
  console_log [newline +:+ "Testing different compression algorithms..."];;
  try_catch
    (results ← run_codecs testData;
     console_log [newline +:+ "Final Results:"];;
     console_table results)
    (λ error, console_error ["Test failed:"; message error]).

Definition compareCompressions : M unit :=
  console_log ["Fetching large test data..."];;
  testData ← fetchTestData;
  compare_with testData.

End Program.

(** ** Bytes on the wire *)

(** The bytes [res.send(testData)] sends for a string: its UTF-8
    encoding.  A character stands for the UTF-16 code unit of its
    number (0 to 255): below 128 it is one byte, from 128 on two. *)
Definition utf8_char (c : Ascii.ascii) : Buffer :=
  let n := Ascii.N_of_ascii c in
  if (n <? 128)%N then [default Byte.x00 (Byte.of_N n)]
  else [default Byte.x00 (Byte.of_N (192 + n / 64));
        default Byte.x00 (Byte.of_N (128 + n mod 64))].

Fixpoint utf8_encode (s : string) : Buffer :=
  match s with
  | EmptyString => []
  | String c rest => utf8_char c ++ utf8_encode rest
  end.

(** [Buffer.byteLength(s, 'utf8')] *)
Definition byteLength (s : string) : nat := length (utf8_encode s).

(** ** Reading a trace *)

(** The Runner invocations of a trace: the app each [app.listen] was
    called on (codec and payload served), the port and whether the bind
    succeeded. *)
Definition listens (tr : list Event) : list (string * string * Z * bool) :=
  omap (λ ev, match ev with
              | EvListen codec testData port bound => Some (codec, testData, port, bound)
              | _ => None
              end) tr.

Definition tables (tr : list Event) : list (list Result) :=
  omap (λ ev, match ev with EvTable rows => Some rows | _ => None end) tr.

Definition fetches (tr : list Event) : list string :=
  omap (λ ev, match ev with EvFetch url => Some url | _ => None end) tr.

(** The port [testCompression] picks when started in [w]. *)
Definition port_of (env : Env) (w : World) : Z :=
  3000 + Qfloor (Math_random env (tick w) * 1000)%Q.

(** The bind error [app.listen] meets, if any, when [testCompression]
    is started in [w]. *)
Definition bind_error (env : Env) (w : World) : option Error :=
  if decide (port_of env w ∈ listening w) then Some (EADDRINUSE (port_of env w))
  else port_in_use env (S (tick w)) (port_of env w).

(** The answer to the benchmarked request. *)
Definition answer (env : Env) (algorithm testData : string) (w : World)
  : Error + Response Buffer :=
  local_get env (S (S (tick w))) (port_of env w) algorithm testData.

(** The clock when the timer is started and when it is stopped. *)
Definition started (env : Env) (w : World) : N :=
  (clock w + elapsed env (tick w) + elapsed env (S (tick w)))%N.
Definition stopped (env : Env) (w : World) : N :=
  (started env w + elapsed env (S (S (tick w))))%N.

(** [process.hrtime(process.hrtime())] between two clock values. *)
Definition hrtime_diff (c1 c2 : N) : Z * Z :=
  let s := Z.of_N c2 / 10 ^ 9 - Z.of_N c1 / 10 ^ 9 in
  let ns := Z.of_N c2 mod 10 ^ 9 - Z.of_N c1 mod 10 ^ 9 in
  if ns <? 0 then (s - 1, ns + 10 ^ 9) else (s, ns).

Definition duration_of (env : Env) (w : World) : string :=
  JS.toFixed2_Q (milliseconds (hrtime_diff (started env w) (stopped env w))).

(** The world [testCompression] leaves when the bind fails. *)
Definition bind_failed_world (env : Env) (algorithm testData : string) (w : World)
  : World :=
  {| tick := S (S (tick w)); clock := started env w; listening := listening w;
     trace := trace w ++ [EvListen algorithm testData (port_of env w) false] |}.

(** The world [testCompression] leaves once its callback has run;
    [said] is what the catch block printed, if it ran. *)
Definition closed_world (env : Env) (algorithm testData : string) (w : World)
    (said : list Event) : World :=
  {| tick := S (S (S (tick w))); clock := stopped env w;
     listening := ({[port_of env w]} ∪ listening w) ∖ {[port_of env w]};
     trace := trace w ++
       [EvListen algorithm testData (port_of env w) true;
        EvLog [newline +:+ "Testing " +:+ algorithm +:+ " compression:"];
        EvLog ["Original content size:";
               formatBytes (Z.of_nat (String.length testData))];
        EvRequest (port_of env w) algorithm] ++ said ++ [EvClose (port_of env w)] |}.

(** The world in which the fallback generator starts: both sources
    have failed. *)
Definition offline_world (env : Env) (w : World) : World :=
  {| tick := S (S (tick w));
     clock := (clock w + elapsed env (tick w) + elapsed env (S (tick w)))%N;
     listening := listening w;
     trace := trace w ++
       [EvFetch "https://www.gutenberg.org/files/100/100-0.txt";
        EvLog ["Failed to fetch from " +:+ "https://www.gutenberg.org/files/100/100-0.txt"
                 +:+ ", trying next source..."];
        EvFetch "https://www.gutenberg.org/cache/epub/100/pg100.txt";
        EvLog ["Failed to fetch from "
                 +:+ "https://www.gutenberg.org/cache/epub/100/pg100.txt"
                 +:+ ", trying next source..."];
        EvError ["Error fetching test data:"; "All data sources failed"]] |}.

(** The payload an invocation served. *)
Definition served (i : string * string * Z * bool) : string := i.1.1.2.
(** The codec an invocation was for. *)
Definition codec_of (i : string * string * Z * bool) : string := i.1.1.1.

(** [earlier_bound l]: every invocation of [l] but the last bound its
    port. *)
Definition earlier_bound (l : list (string * string * Z * bool)) : Prop :=
  ∀ n i, l !! n = Some i → (S n < length l)%nat → i.2 = true.

(** [rejects_at env d codecs w e w']: running the codecs in order from
    [w], all succeed up to one whose invocation rejects with [e],
    leaving the world [w']. *)
Inductive rejects_at (env : Env) (testData : string)
  : list string → World → Error → World → Prop :=
  | rejects_here codec rest w e w' :
      testCompression env codec testData w = (Throw e, w') →
      rejects_at env testData (codec :: rest) w e w'
  | rejects_later codec rest w r w1 e w' :
      testCompression env codec testData w = (Ok r, w1) →
      rejects_at env testData rest w1 e w' →
      rejects_at env testData (codec :: rest) w e w'.

(** The world in which the try block of [compareCompressions] starts. *)
Definition batch_start (testData : string) (w : World) : World :=
  snd ((console_log ["Fetched " +:+ formatBytes (Z.of_nat (String.length testData))
                       +:+ " of test data"];;
        console_log [newline +:+ "Testing different compression algorithms..."]) w).

(** The local requests of a trace: port and Accept-Encoding. *)
Definition requests (tr : list Event) : list (Z * string) :=
  omap (λ ev, match ev with
              | EvRequest port accept_encoding => Some (port, accept_encoding)
              | _ => None
              end) tr.

(** What a trace printed with [console.error]. *)
Definition errors (tr : list Event) : list (list string) :=
  omap (λ ev, match ev with EvError args => Some args | _ => None end) tr.

(** What a trace printed with [console.log]. *)
Definition logs (tr : list Event) : list (list string) :=
  omap (λ ev, match ev with EvLog args => Some args | _ => None end) tr.

(** ** Sample worlds *)

Definition w0 : World := {| tick := 0; clock := 0; listening := ∅; trace := [] |}.

Definition gzip_bytes : Buffer :=
  [Byte.x1f; Byte.x8b; Byte.x08; Byte.x00; Byte.x00;
   Byte.x00; Byte.x00; Byte.x00; Byte.x00; Byte.x03].

Definition sample_text : string := "to be or not to be, to be or not to be".

(** A response that echoes the requested encoding. *)
Definition echo (encoding : string) : Response Buffer :=
  {| headers := {[ "content-encoding" := encoding ]}; data := gzip_bytes |}.

(** Everything works: the first source answers, ports are free and the
    server echoes the requested encoding. *)
Definition env_ok : Env := {|
  Math_random := λ _, (1 # 2)%Q;
  elapsed := λ _, 1500000%N;
  remote_get := λ _ _, inr {| headers := ∅; data := sample_text |};
  port_in_use := λ _ _, None;
  local_get := λ _ _ encoding _, inr (echo encoding) |}.

(** As [env_ok], but the gzip request fails. *)
Definition env_gzip_fails : Env := {|
  Math_random := λ _, (1 # 2)%Q;
  elapsed := λ _, 1500000%N;
  remote_get := λ _ _, inr {| headers := ∅; data := sample_text |};
  port_in_use := λ _ _, None;
  local_get := λ _ _ encoding _,
    if decide (encoding = "gzip") then inl {| message := "socket hang up" |}
    else inr (echo encoding) |}.

(** As [env_ok], but every port is held by another process. *)
Definition env_ports_taken : Env := {|
  Math_random := λ _, (1 # 2)%Q;
  elapsed := λ _, 1500000%N;
  remote_get := λ _ _, inr {| headers := ∅; data := sample_text |};
  port_in_use := λ _ port, Some (EADDRINUSE port);
  local_get := λ _ _ encoding _, inr (echo encoding) |}.

(** As [env_ok], but the br request fails. *)
Definition env_br_fails : Env := {|
  Math_random := λ _, (1 # 2)%Q;
  elapsed := λ _, 1500000%N;
  remote_get := λ _ _, inr {| headers := ∅; data := sample_text |};
  port_in_use := λ _ _, None;
  local_get := λ _ _ encoding _,
    if decide (encoding = "br") then inl {| message := "socket hang up" |}
    else inr (echo encoding) |}.

(** As [env_ok], but only the backup url answers. *)
Definition env_backup_only : Env := {|
  Math_random := λ _, (1 # 2)%Q;
  elapsed := λ _, 1500000%N;
  remote_get := λ _ url,
    if decide (url = "https://www.gutenberg.org/cache/epub/100/pg100.txt")
    then inr {| headers := ∅; data := sample_text |}
    else inl {| message := "Request failed with status code 404" |};
  port_in_use := λ _ _, None;
  local_get := λ _ _ encoding _, inr (echo encoding) |}.

(** A server that answers with more bytes than it was given. *)
Definition env_expands : Env := {|
  Math_random := λ _, (1 # 2)%Q;
  elapsed := λ _, 1500000%N;
  remote_get := λ _ _, inr {| headers := ∅; data := "to be" |};
  port_in_use := λ _ _, None;
  local_get := λ _ _ encoding _, inr (echo encoding) |}.

(** The server answers with an empty content-encoding header. *)
Definition env_empty_header : Env := {|
  Math_random := λ _, (1 # 2)%Q;
  elapsed := λ _, 1500000%N;
  remote_get := λ _ _, inr {| headers := ∅; data := sample_text |};
  port_in_use := λ _ _, None;
  local_get := λ _ _ _ _, inr (echo "") |}.

(** The text 'éééé': four characters, each U+00E9. *)
Definition e_acute : Ascii.ascii := Ascii.ascii_of_nat 233.
Definition accented : string :=
  String e_acute (String e_acute (String e_acute (String e_acute ""))).

(** The source answers with accented text, and the server sends its
    payload back as it is, without compressing. *)
Definition env_accented : Env := {|
  Math_random := λ _, (1 # 2)%Q;
  elapsed := λ _, 1500000%N;
  remote_get := λ _ _, inr {| headers := ∅; data := accented |};
  port_in_use := λ _ _, None;
  local_get := λ _ _ _ testData, inr {| headers := ∅; data := utf8_encode testData |} |}.



(** No remote source answers, and the server does not compress. *)
Definition env_offline : Env := {|
  Math_random := λ t, (Z.of_nat (t * 7 mod 10) # 10)%Q;
  elapsed := λ _, 1500000%N;
  remote_get := λ _ _, inl {| message := "timeout of 10000ms exceeded" |};
  port_in_use := λ _ _, None;
  local_get := λ _ _ _ _, inr {| headers := ∅; data := gzip_bytes |} |}.

(** * Properties *)

(** ** The pieces of [testCompression] *)

#[local] Arguments Qfloor : simpl never.
#[local] Arguments formatBytes : simpl never.
#[local] Arguments make_result : simpl never.
#[local] Arguments milliseconds : simpl never.
#[local] Arguments JS.toFixed2_Q : simpl never.
#[local] Arguments Z.pow : simpl never.
#[local] Arguments Z.div : simpl never.
#[local] Arguments Z.modulo : simpl never.
#[local] Arguments String.append : simpl never.

Section Runner.
Variable env : Env.
Variables algorithm testData : string.
Variable w : World.

Let port := port_of env w.

Lemma testCompression_bind_failed e :
  bind_error env w = Some e →
  testCompression env algorithm testData w =
    (Unhandled e, bind_failed_world env algorithm testData w).
Proof.
  unfold bind_failed_world, bind_error, testCompression, random, app_listen, started.
  fold port.
  unfold mbind, M_bind, bind, mret, M_ret, ret, ask, emit; simpl.
  fold (port_of env w). fold port.
  destruct (decide (port ∈ listening w)); intros Hb.
  - injection Hb as <-. reflexivity.
  - rewrite Hb. reflexivity.
Qed.

Ltac run_callback :=
  unfold try_finally, try_catch, axios_get_local, hrtime, hrtime_since, console_log,
    console_error, server_close, throw, set_listening, emit, ask,
    mbind, M_bind, bind, mret, M_ret, ret; simpl.

Lemma testCompression_request_failed e :
  bind_error env w = None →
  answer env algorithm testData w = inl e →
  testCompression env algorithm testData w =
    (Throw e,
     closed_world env algorithm testData w [EvError ["Error:"; message e]]).
Proof.
  unfold closed_world, bind_error, answer, testCompression, random, app_listen,
    on_listening, stopped, started. fold port.
  unfold mbind, M_bind, bind, mret, M_ret, ret, ask, emit; simpl.
  fold (port_of env w). fold port.
  destruct (decide (port ∈ listening w)); [discriminate |]. intros Hb Ha. rewrite Hb.
  run_callback. rewrite Ha; simpl. rewrite <- !app_assoc. reflexivity.
Qed.

Lemma testCompression_served response :
  bind_error env w = None →
  answer env algorithm testData w = inr response →
  testCompression env algorithm testData w =
    (Ok (make_result testData response (duration_of env w)),
     closed_world env algorithm testData w []).
Proof.
  unfold closed_world, bind_error, answer, testCompression, random, app_listen,
    on_listening, duration_of, stopped, started. fold port.
  unfold mbind, M_bind, bind, mret, M_ret, ret, ask, emit; simpl.
  fold (port_of env w). fold port.
  destruct (decide (port ∈ listening w)); [discriminate |]. intros Hb Ha. rewrite Hb.
  run_callback. rewrite Ha; simpl. rewrite <- !app_assoc. reflexivity.
Qed.

(** The three ways an invocation can go. *)
Lemma testCompression_cases :
  (∃ e, bind_error env w = Some e ∧
        testCompression env algorithm testData w =
          (Unhandled e, bind_failed_world env algorithm testData w)) ∨
  (∃ e, bind_error env w = None ∧ answer env algorithm testData w = inl e ∧
        testCompression env algorithm testData w =
          (Throw e, closed_world env algorithm testData w
                      [EvError ["Error:"; message e]])) ∨
  (∃ response, bind_error env w = None ∧
        answer env algorithm testData w = inr response ∧
        testCompression env algorithm testData w =
          (Ok (make_result testData response (duration_of env w)),
           closed_world env algorithm testData w [])).
Proof.
  destruct (bind_error env w) as [e|] eqn:Hb.
  - left. exists e. split; [reflexivity |]. now apply testCompression_bind_failed.
  - right. destruct (answer env algorithm testData w) as [e|response] eqn:Ha.
    + left. exists e. repeat split. now apply testCompression_request_failed.
    + right. exists response. repeat split. now apply testCompression_served.
Qed.

End Runner.

(** ** Numbers *)

Example formatBytes_0 : formatBytes 0 = "0 Bytes".
Proof. reflexivity. Qed.
Example formatBytes_1536 : formatBytes 1536 = "1.5 KB".
Proof. vm_compute. reflexivity. Qed.
Example formatBytes_5MB : formatBytes (5 * 1024 * 1024) = "5 MB".
Proof. vm_compute. reflexivity. Qed.
Example formatBytes_readme : formatBytes 5557453 = "5.3 MB".
Proof. vm_compute. reflexivity. Qed.
Example formatBytes_big : formatBytes (1024 ^ 4) = "1 undefined".
Proof. vm_compute. reflexivity. Qed.
Example toFixed2_ex1 : JS.toFixed2_Q (6166 # 100)%Q = "61.66".
Proof. vm_compute. reflexivity. Qed.
Example toFixed2_ex2 : JS.toFixed2_Q (- (1 # 8))%Q = "-0.13".
Proof. vm_compute. reflexivity. Qed.
Example toFixed2_ex3 : JS.toFixed2_Q (5 # 1000)%Q = "0.01".
Proof. vm_compute. reflexivity. Qed.

Lemma hundredths_nonneg (x : Q) : (0 <= x)%Q → 0 ≤ JS.hundredths x.
Proof.
  intros Hx. unfold JS.hundredths.
  change 0 with (Qfloor 0). apply Qfloor_resp_le. lra.
Qed.

(** [toFixed(2)] is off by at most half a hundredth. *)
Lemma hundredths_close (x : Q) :
  (Qabs (inject_Z (JS.hundredths x) / 100 - x) <= 1 # 200)%Q.
Proof.
  unfold JS.hundredths.
  pose proof (Qfloor_le (x * 100 + (1 # 2))) as Hlo.
  pose proof (Qlt_floor (x * 100 + (1 # 2))) as Hhi.
  rewrite inject_Z_plus in Hhi. change (inject_Z 1) with 1%Q in Hhi.
  set (n := inject_Z (Qfloor (x * 100 + (1 # 2)))) in *.
  unfold Qdiv. change (/ 100)%Q with (1 # 100)%Q.
  apply Qabs_case; intros _; lra.
Qed.


(** The printed number: a sign, digits with two decimals, and a value
    within half a hundredth of [x]. *)
Lemma toFixed2_Q_spec (x : Q) :
  ∃ (negative : bool) (n : Z),
    0 ≤ n ∧
    JS.toFixed2_Q x = (if negative then "-" else "") +:+ JS.fixed2_digits n ∧
    (Qabs (inject_Z (if negative then - n else n) / 100 - x) <= 1 # 200)%Q.
Proof.
  unfold JS.toFixed2_Q. destruct (Qlt_le_dec x 0) as [Hneg|Hpos].
  - exists true, (JS.hundredths (- x)). split; [| split].
    + apply hundredths_nonneg. lra.
    + reflexivity.
    + pose proof (hundredths_close (- x)) as Hc.
      rewrite inject_Z_opp.
      set (n := inject_Z (JS.hundredths (- x))) in *.
      unfold Qdiv in *. change (/ 100)%Q with (1 # 100)%Q in *.
      revert Hc. apply Qabs_case; intros Hs Hc; apply Qabs_case; intros _; lra.
  - exists false, (JS.hundredths x). split; [| split].
    + now apply hundredths_nonneg.
    + reflexivity.
    + apply hundredths_close.
Qed.

Lemma hrtime_diff_spec (c1 c2 : N) :
  (c1 ≤ c2)%N →
  0 ≤ fst (hrtime_diff c1 c2) ∧
  0 ≤ snd (hrtime_diff c1 c2) < 10 ^ 9 ∧
  fst (hrtime_diff c1 c2) * 10 ^ 9 + snd (hrtime_diff c1 c2) = Z.of_N c2 - Z.of_N c1.
Proof.
  intros Hle. unfold hrtime_diff.
  assert (Hpos : 0 < 10 ^ 9) by reflexivity.
  set (b := 10 ^ 9) in *.
  pose proof (Z.div_mod (Z.of_N c1) b ltac:(lia)) as E1.
  pose proof (Z.div_mod (Z.of_N c2) b ltac:(lia)) as E2.
  pose proof (Z.mod_pos_bound (Z.of_N c1) b Hpos) as B1.
  pose proof (Z.mod_pos_bound (Z.of_N c2) b Hpos) as B2.
  assert (Hc : Z.of_N c1 ≤ Z.of_N c2) by lia.
  pose proof (Z.div_le_mono _ _ b Hpos Hc) as Hd.
  destruct (Z.ltb_spec (Z.of_N c2 mod b - Z.of_N c1 mod b) 0) as [Hlt|Hge]; simpl.
  - repeat split; lia.
  - repeat split; lia.
Qed.


(** ** The synthetic payload *)

Lemma length_app_string (s1 s2 : string) :
  String.length (s1 +:+ s2) = (String.length s1 + String.length s2)%nat.
Proof. induction s1 as [|c s1 IH]; simpl; [reflexivity | now rewrite IH]. Qed.

Lemma words_nonempty : Forall (λ s, (1 ≤ String.length s)%nat) words.
Proof. unfold words. repeat constructor; simpl; lia. Qed.

Lemma picked_word_nonempty (i : Z) :
  (1 ≤ String.length (JS.string_of (JS.index words i)))%nat.
Proof.
  unfold JS.index. destruct (i <? 0); [simpl; lia |].
  destruct (words !! Z.to_nat i) as [s|] eqn:E; [| simpl; lia].
  exact (proj1 (Forall_lookup _ _) words_nonempty _ _ E).
Qed.

(** Each pass through the loop body makes [result] longer, by two
    characters or more (a word and a space). *)
Lemma generate_body_grows result r1 r2 :
  (String.length result + 2 ≤ String.length (generate_body result r1 r2))%nat.
Proof.
  unfold generate_body.
  pose proof (picked_word_nonempty (Qfloor (r1 * inject_Z (Z.of_nat (length words))))) as Hw.
  destruct (Qlt_le_dec r2 (1 # 10)); rewrite !length_app_string;
    change (String.length " ") with 1%nat; lia.
Qed.

(** The loop ends with [size] characters or more, and touches nothing
    but the random source and the clock. *)
Lemma generate_loop_spec env size result w :
  size ≤ Z.of_nat (String.length (fst (generate_loop env size result w))) ∧
  (String.length result ≤ String.length (fst (generate_loop env size result w)))%nat ∧
  trace (snd (generate_loop env size result w)) = trace w ∧
  listening (snd (generate_loop env size result w)) = listening w.
Proof.
  funelim (generate_loop env size result w).
  - destruct H as (H1 & H2 & H3 & H4).
    pose proof (generate_body_grows result (Math_random env (tick w))
                  (Math_random env (tick (snd (ask env w))))) as Hg.
    change (generate_body result _ _) with (fst (generate_iter env result w)) in Hg.
    repeat split; [assumption | lia | rewrite H3 | rewrite H4]; reflexivity.
  - simpl. repeat split; lia.
Qed.

(** C9.  For every positive target size the synthetic payload generator
    returns: its loop is total because each pass makes the accumulated
    string strictly longer.  The string returned has at least [size]
    characters and is never empty. *)
Theorem generateCompressedTestData_succeeds env size w :
  0 < size →
  (∀ result r1 r2,
     (String.length result < String.length (generate_body result r1 r2))%nat) ∧
  ∃ result w',
    generateCompressedTestData env size w = (Ok result, w') ∧
    size ≤ Z.of_nat (String.length result) ∧
    result ≠ "".
Proof.
  intros Hsize. split.
  - intros result r1 r2. pose proof (generate_body_grows result r1 r2). lia.
  - unfold generateCompressedTestData.
    destruct (generate_loop_spec env size "" w) as (Hlen & _).
    destruct (generate_loop env size "" w) as [result w'] eqn:E.
    exists result, w'. simpl in Hlen. repeat split; [exact Hlen |].
    intros ->. simpl in Hlen. lia.
Qed.

Lemma generateCompressedTestData_succeeds_witness :
  0 < 40 ∧
  (∀ result r1 r2,
     (String.length result < String.length (generate_body result r1 r2))%nat) ∧
  ∃ result w',
    generateCompressedTestData env_offline 40 w0 = (Ok result, w') ∧
    40 ≤ Z.of_nat (String.length result) ∧
    result ≠ "".
Proof.
  assert (Hsize : 0 < 40) by lia.
  split; [exact Hsize |].
  exact (generateCompressedTestData_succeeds env_offline 40 w0 Hsize).
Defined.

Example generateCompressedTestData_40 :
  fst (generateCompressedTestData env_offline 40 w0)
  = Ok "the I thy and Romeo the I thy and Romeo ".
Proof. vm_compute. reflexivity. Qed.

(** ** formatBytes *)

Lemma unit_index_bounds (bytes : Z) :
  1 ≤ bytes < 1024 ^ 4 → 0 ≤ unit_index bytes < 4.
Proof.
  intros [Hlo Hhi]. unfold unit_index.
  assert (0 ≤ Z.log2 bytes) by apply Z.log2_nonneg.
  assert (Z.log2 bytes < 40).
  { apply Z.log2_lt_pow2; [lia |]. exact Hhi. }
  split.
  - apply Z.div_pos; lia.
  - apply Z.div_lt_upper_bound; lia.
Qed.

(** C10.  [formatBytes(0)] is '0 Bytes', and for an integer [bytes] from
    1 up to (not including) 1024^4 the unit index stays inside the
    four-element unit list, so the string returned ends in one of
    'Bytes', 'KB', 'MB', 'GB'. *)
Theorem formatBytes_unit_in_range (bytes : Z) :
  1 ≤ bytes < 1024 ^ 4 →
  formatBytes 0 = "0 Bytes" ∧
  0 ≤ unit_index bytes < Z.of_nat (length sizes) ∧
  ∃ number unit,
    unit ∈ sizes ∧
    JS.index sizes (unit_index bytes) = Some unit ∧
    formatBytes bytes = number +:+ " " +:+ unit.
Proof.
  intros Hb. pose proof (unit_index_bounds bytes Hb) as Hi.
  split; [reflexivity |]. split; [exact Hi |].
  unfold formatBytes.
  destruct (Z.eqb_spec bytes 0) as [?|_]; [lia |].
  destruct (Z.ltb_spec bytes 0) as [?|_]; [lia |].
  cbv zeta.
  assert (Hcase : unit_index bytes = 0 ∨ unit_index bytes = 1 ∨
                  unit_index bytes = 2 ∨ unit_index bytes = 3) by lia.
  set (number := JS.string_of_hundredths _).
  destruct Hcase as [E | [E | [E | E]]]; rewrite E.
  - exists number, "Bytes". split; [| split; reflexivity].
    unfold sizes. rewrite !elem_of_cons. tauto.
  - exists number, "KB". split; [| split; reflexivity].
    unfold sizes. rewrite !elem_of_cons. tauto.
  - exists number, "MB". split; [| split; reflexivity].
    unfold sizes. rewrite !elem_of_cons. tauto.
  - exists number, "GB". split; [| split; reflexivity].
    unfold sizes. rewrite !elem_of_cons. tauto.
Qed.

Lemma formatBytes_unit_in_range_witness :
  1 ≤ 1536 < 1024 ^ 4 ∧
  formatBytes 0 = "0 Bytes" ∧
  0 ≤ unit_index 1536 < Z.of_nat (length sizes) ∧
  ∃ number unit,
    unit ∈ sizes ∧
    JS.index sizes (unit_index 1536) = Some unit ∧
    formatBytes 1536 = number +:+ " " +:+ unit.
Proof.
  assert (Hb : 1 ≤ 1536 < 1024 ^ 4) by lia.
  split; [exact Hb |].
  exact (formatBytes_unit_in_range 1536 Hb).
Defined.

(** ** One Runner invocation *)

Lemma listens_app tr1 tr2 : listens (tr1 ++ tr2) = listens tr1 ++ listens tr2.
Proof. apply omap_app. Qed.

Lemma tables_app tr1 tr2 : tables (tr1 ++ tr2) = tables tr1 ++ tables tr2.
Proof. apply omap_app. Qed.

Lemma fetches_app tr1 tr2 : fetches (tr1 ++ tr2) = fetches tr1 ++ fetches tr2.
Proof. apply omap_app. Qed.

Lemma bind_ok_port_free env w :
  bind_error env w = None → port_of env w ∉ listening w.
Proof.
  unfold bind_error. destruct (decide (port_of env w ∈ listening w)); [discriminate | auto].
Qed.

Lemma closed_world_listening env algorithm testData w said :
  port_of env w ∉ listening w →
  listening (closed_world env algorithm testData w said) = listening w.
Proof.
  intros Hfree. unfold closed_world; cbn [listening].
  apply set_eq. intros x.
  rewrite elem_of_difference, elem_of_union, elem_of_singleton.
  split.
  - intros [[Hx | Hx] Hne]; [contradiction | assumption].
  - intros Hx. split; [right; assumption | intros ->; contradiction].
Qed.

Lemma closed_world_listens env algorithm testData w said :
  listens said = [] →
  listens (trace (closed_world env algorithm testData w said))
  = listens (trace w) ++ [(algorithm, testData, port_of env w, true)].
Proof.
  intros Hsaid. unfold closed_world; cbn [trace].
  rewrite !listens_app, Hsaid. reflexivity.
Qed.

Lemma port_of_range env w :
  (0 <= Math_random env (tick w) < 1)%Q → 3000 ≤ port_of env w ≤ 3999.
Proof.
  intros [Hlo Hhi]. unfold port_of.
  set (x := (Math_random env (tick w) * 1000)%Q).
  assert (H0 : 0 ≤ Qfloor x).
  { change 0 with (Qfloor 0). apply Qfloor_resp_le. unfold x. lra. }
  assert (H1 : Qfloor x < 1000).
  { rewrite Zlt_Qlt. apply Qle_lt_trans with x; [apply Qfloor_le |].
    unfold x. change (inject_Z 1000) with 1000%Q. lra. }
  lia.
Qed.

(** C2, as the code has it.  An invocation picks one port,
    3000 + floor(Math.random() * 1000), which lies in 3000..3999, and
    calls [app.listen] on it exactly once: there is no second attempt
    on another port, whether the bind succeeds or not. *)
Theorem testCompression_binds_once env algorithm testData w :
  (0 <= Math_random env (tick w) < 1)%Q →
  3000 ≤ port_of env w ≤ 3999 ∧
  ∃ bound,
    listens (trace (snd (testCompression env algorithm testData w)))
    = listens (trace w) ++ [(algorithm, testData, port_of env w, bound)].
Proof.
  intros Hr. split; [now apply port_of_range |].
  destruct (testCompression_cases env algorithm testData w)
    as [(e & _ & ->) | [(e & _ & _ & ->) | (response & _ & _ & ->)]].
  - exists false. simpl. now rewrite listens_app.
  - exists true. now apply closed_world_listens.
  - exists true. now apply closed_world_listens.
Qed.

Lemma testCompression_binds_once_witness :
  (0 <= Math_random env_ok (tick w0) < 1)%Q ∧
  3000 ≤ port_of env_ok w0 ≤ 3999 ∧
  ∃ bound,
    listens (trace (snd (testCompression env_ok "gzip" sample_text w0)))
    = listens (trace w0) ++ [("gzip", sample_text, port_of env_ok w0, bound)].
Proof.
  assert (Hr : (0 <= Math_random env_ok (tick w0) < 1)%Q)
    by (split; vm_compute; [discriminate | reflexivity]).
  split; [exact Hr |].
  exact (testCompression_binds_once env_ok "gzip" sample_text w0 Hr).
Defined.

(** C2 fails as stated: with the chosen port held by another process,
    the invocation makes its one bind attempt, tries no other port, and
    ends in an unhandled 'error' event instead of a rejection. *)
Lemma bind_failure_is_not_retried :
  ∃ w',
    testCompression env_ports_taken "gzip" sample_text w0
      = (Unhandled (EADDRINUSE 3500), w') ∧
    listens (trace w') = [("gzip", sample_text, 3500, false)].
Proof.
  eexists. split; vm_compute; reflexivity.
Qed.

(** C3.  Whatever way an invocation ends, it leaves the set of ports
    the process listens on as it found it.  When it settles (result or
    rejection) [server.close()] is its last action, after the listen,
    and the port it used is not listened on; when the bind fails, no
    listener was opened on the port at all. *)
Theorem testCompression_releases_port env algorithm testData w :
  listening (snd (testCompression env algorithm testData w)) = listening w ∧
  match fst (testCompression env algorithm testData w) with
  | Unhandled _ =>
      listens (trace (snd (testCompression env algorithm testData w)))
      = listens (trace w) ++ [(algorithm, testData, port_of env w, false)]
  | _ =>
      (port_of env w ∉ listening (snd (testCompression env algorithm testData w))) ∧
      (∃ during,
        trace (snd (testCompression env algorithm testData w))
        = trace w ++ (EvListen algorithm testData (port_of env w) true
                      :: during ++ [EvClose (port_of env w)]))
  end.
Proof.
  destruct (testCompression_cases env algorithm testData w)
    as [(e & _ & ->) | [(e & Hb & _ & ->) | (response & Hb & _ & ->)]].
  - split; [reflexivity |]. simpl. now rewrite listens_app.
  - pose proof (bind_ok_port_free env w Hb) as Hfree.
    cbn [fst snd]. rewrite closed_world_listening by assumption.
    split; [reflexivity |]. split; [assumption |].
    eexists (_ :: _ :: _ :: [_]). reflexivity.
  - pose proof (bind_ok_port_free env w Hb) as Hfree.
    cbn [fst snd]. rewrite closed_world_listening by assumption.
    split; [reflexivity |]. split; [assumption |].
    eexists (_ :: _ :: [_]). reflexivity.
Qed.

(** An invocation that returns a result got an answer to its request,
    and the result is built from that answer. *)
Lemma testCompression_Ok_inv env codec testData w r w' :
  testCompression env codec testData w = (Ok r, w') →
  ∃ response,
    bind_error env w = None ∧
    answer env codec testData w = inr response ∧
    r = make_result testData response (duration_of env w) ∧
    w' = closed_world env codec testData w [].
Proof.
  intros Hrun.
  destruct (testCompression_cases env codec testData w)
    as [(e & _ & E) | [(e & _ & _ & E) | (response & Hb & Ha & E)]];
    rewrite E in Hrun; [discriminate | discriminate |].
  injection Hrun as <- <-. exists response. repeat split; assumption.
Qed.

(** C4.  An invocation whose request is answered returns a result,
    whatever encoding the answer carries.  The [algorithm] of the result
    is the content-encoding header of the response, and 'none' when the
    response has no such header (an empty header value counts as none). *)
Theorem algorithm_is_echoed_encoding env codec testData w response :
  bind_error env w = None →
  answer env codec testData w = inr response →
  ∃ r w',
    testCompression env codec testData w = (Ok r, w') ∧
    match headers response !! "content-encoding" with
    | Some encoding => encoding ≠ "" → algorithm r = encoding
    | None => algorithm r = "none"
    end.
Proof.
  intros Hb Ha. eexists _, _. split.
  - exact (testCompression_served env codec testData w response Hb Ha).
  - unfold make_result; cbn [algorithm]. unfold JS.or_else.
    destruct (headers response !! "content-encoding") as [encoding|]; [| reflexivity].
    intros Hne. destruct (decide (encoding = "")); [contradiction | reflexivity].
Qed.

Lemma algorithm_is_echoed_encoding_witness :
  bind_error env_ok w0 = None ∧
  answer env_ok "br" sample_text w0 = inr (echo "br") ∧
  ∃ r w',
    testCompression env_ok "br" sample_text w0 = (Ok r, w') ∧
    match headers (echo "br") !! "content-encoding" with
    | Some encoding => encoding ≠ "" → algorithm r = encoding
    | None => algorithm r = "none"
    end.
Proof.
  assert (Hb : bind_error env_ok w0 = None) by (vm_compute; reflexivity).
  assert (Ha : answer env_ok "br" sample_text w0 = inr (echo "br"))
    by (vm_compute; reflexivity).
  split; [exact Hb |]. split; [exact Ha |].
  exact (algorithm_is_echoed_encoding env_ok "br" sample_text w0 (echo "br") Hb Ha).
Defined.

Example algorithm_none_when_header_absent :
  algorithm <$> (match fst (testCompression env_offline "gzip" sample_text w0) with
                 | Ok r => Some r | _ => None end) = Some "none".
Proof. vm_compute. reflexivity. Qed.

Lemma utf8_char_length (c : Ascii.ascii) :
  length (utf8_char c) = if (Ascii.N_of_ascii c <? 128)%N then 1%nat else 2%nat.
Proof. unfold utf8_char. destruct (_ <? 128)%N; reflexivity. Qed.

(** Text in ASCII takes one byte per character: there the two lengths
    agree. *)
Lemma byteLength_ascii (s : string) :
  (∀ c, c ∈ String.list_ascii_of_string s → (Ascii.N_of_ascii c < 128)%N) →
  byteLength s = String.length s.
Proof.
  unfold byteLength. induction s as [|c s IH]; intros Hascii; [reflexivity |].
  cbn [utf8_encode String.length]. rewrite length_app, utf8_char_length.
  assert (Hc : (Ascii.N_of_ascii c < 128)%N)
    by (apply Hascii; cbn; apply list_elem_of_here).
  apply N.ltb_lt in Hc. rewrite Hc, IH; [reflexivity |].
  intros c' Hc'. apply Hascii. cbn. now apply list_elem_of_further.
Qed.

(** C5, on the code.  [originalSize] and the ratio are computed from
    [testData.length], the number of characters, not from the number of
    bytes served.  For the text 'éééé' the server sends 8 bytes; when
    the 8 bytes come back unchanged the result says '4 Bytes' for the
    original, '8 Bytes' for the response and a ratio of '-100.00%',
    where the byte lengths give 0%. *)
Theorem originalSize_counts_characters :
  let response := {| headers := ∅; data := utf8_encode accented |} in
  let r := make_result accented response (duration_of env_accented w0) in
  testCompression env_accented "gzip" accented w0
    = (Ok r, closed_world env_accented "gzip" accented w0 []) ∧
  String.length accented = 4%nat ∧
  byteLength accented = 8%nat ∧
  length (data response) = byteLength accented ∧
  originalSize r = "4 Bytes" ∧
  compressedSize r = "8 Bytes" ∧
  compressionRatio r = "-100.00%" ∧
  originalSize r ≠ formatBytes (Z.of_nat (byteLength accented)).
Proof.
  intros response r.
  split; [vm_compute; reflexivity |].
  repeat split; try (vm_compute; reflexivity).
  vm_compute. discriminate.
Qed.

Example compressionRatio_sample :
  compressionRatio (make_result sample_text (echo "gzip") (duration_of env_ok w0))
  = "73.68%".
Proof. vm_compute. reflexivity. Qed.

Example compressionRatio_empty_payload :
  compressionRatio (make_result "" (echo "gzip") (duration_of env_ok w0)) = "-Infinity%".
Proof. vm_compute. reflexivity. Qed.

(** ** The Provider *)

#[local] Arguments generateCompressedTestData : simpl never.

Ltac run_fetch :=
  unfold fetchTestData, fetch_from, urls, try_catch, axios_get_remote, console_log,
    console_error, throw, emit, ask, mbind, M_bind, bind, mret, M_ret, ret;
  cbn [fst snd tick clock listening trace].

(** With every source failing, [fetchTestData] is the generator run
    after the two attempts. *)
Lemma fetchTestData_offline env w e1 e2 :
  remote_get env (tick w) "https://www.gutenberg.org/files/100/100-0.txt" = inl e1 →
  remote_get env (S (tick w)) "https://www.gutenberg.org/cache/epub/100/pg100.txt" = inl e2 →
  fetchTestData env w
  = generateCompressedTestData env (5 * 1024 * 1024) (offline_world env w).
Proof.
  intros H1 H2. run_fetch. rewrite H1. cbn [fst snd tick clock listening trace message].
  rewrite H2. cbn [fst snd tick clock listening trace message].
  unfold offline_world. rewrite <- !app_assoc. reflexivity.
Qed.

Lemma generateCompressedTestData_effects env size w :
  ∃ d w',
    generateCompressedTestData env size w = (Ok d, w') ∧
    size ≤ Z.of_nat (String.length d) ∧
    trace w' = trace w ∧ listening w' = listening w.
Proof.
  unfold generateCompressedTestData.
  destruct (generate_loop_spec env size "" w) as (Hlen & _ & Htr & Hli).
  destruct (generate_loop env size "" w) as [d w']. exists d, w'. auto.
Qed.

(** [fetchTestData] always returns a payload, and runs no codec. *)
Lemma fetchTestData_total env w :
  ∃ d w',
    fetchTestData env w = (Ok d, w') ∧
    listens (trace w') = listens (trace w) ∧
    tables (trace w') = tables (trace w) ∧
    listening w' = listening w.
Proof.
  destruct (remote_get env (tick w) "https://www.gutenberg.org/files/100/100-0.txt")
    as [e1|r1] eqn:H1;
  [destruct (remote_get env (S (tick w))
               "https://www.gutenberg.org/cache/epub/100/pg100.txt")
     as [e2|r2] eqn:H2 |].
  - rewrite (fetchTestData_offline env w e1 e2 H1 H2).
    destruct (generateCompressedTestData_effects env (5 * 1024 * 1024)
                (offline_world env w)) as (d & w' & -> & _ & Htr & Hli).
    exists d, w'. rewrite Htr, Hli. unfold offline_world; cbn [trace listening].
    rewrite listens_app, tables_app. cbn. rewrite !app_nil_r. auto.
  - eexists _, _. split.
    + run_fetch. rewrite H1. cbn [fst snd tick clock listening trace message].
      rewrite H2. reflexivity.
    + cbn [trace listening]. rewrite <- !app_assoc, listens_app, tables_app. cbn.
      rewrite !app_nil_r. auto.
  - eexists _, _. split.
    + run_fetch. rewrite H1. reflexivity.
    + cbn [trace listening]. rewrite listens_app, tables_app. cbn.
      rewrite !app_nil_r. auto.
Qed.

(** ** The Orchestrator *)

(** What one invocation leaves behind, however it ends. *)
Lemma testCompression_effects env codec testData w :
  listening (snd (testCompression env codec testData w)) = listening w ∧
  fetches (trace (snd (testCompression env codec testData w))) = fetches (trace w) ∧
  tables (trace (snd (testCompression env codec testData w))) = tables (trace w) ∧
  ∃ bound,
    listens (trace (snd (testCompression env codec testData w)))
    = listens (trace w) ++ [(codec, testData, port_of env w, bound)].
Proof.
  destruct (testCompression_cases env codec testData w)
    as [(e & _ & ->) | [(e & Hb & _ & ->) | (response & Hb & _ & ->)]];
    cbn [fst snd].
  - unfold bind_failed_world; cbn [trace listening].
    rewrite fetches_app, tables_app, listens_app. cbn. rewrite !app_nil_r.
    repeat split. now exists false.
  - rewrite closed_world_listening by now apply bind_ok_port_free.
    rewrite closed_world_listens by reflexivity.
    unfold closed_world; cbn [trace].
    rewrite !fetches_app, !tables_app. cbn. rewrite !app_nil_r.
    repeat split. now exists true.
  - rewrite closed_world_listening by now apply bind_ok_port_free.
    rewrite closed_world_listens by reflexivity.
    unfold closed_world; cbn [trace].
    rewrite !fetches_app, !tables_app. cbn. rewrite !app_nil_r.
    repeat split. now exists true.
Qed.

(** The listen an invocation adds, with its outcome: the bind failed
    exactly when the invocation ends unhandled. *)
Lemma testCompression_listen_flag env codec testData w :
  listens (trace (snd (testCompression env codec testData w)))
  = listens (trace w)
    ++ [(codec, testData, port_of env w,
         match fst (testCompression env codec testData w) with
         | Unhandled _ => false
         | _ => true
         end)].
Proof.
  destruct (testCompression_cases env codec testData w)
    as [(e & _ & ->) | [(e & _ & _ & ->) | (response & _ & _ & ->)]];
    cbn [fst snd].
  - unfold bind_failed_world; cbn [trace]. now rewrite listens_app.
  - now apply closed_world_listens.
  - now apply closed_world_listens.
Qed.


Lemma run_codecs_rejects env testData w e w' :
  rejects_at env testData ["gzip"; "deflate"; "br"] w e w' →
  run_codecs env testData w = (Throw e, w').
Proof.
  intros Hrej. unfold run_codecs, mbind, M_bind, bind.
  inversion Hrej as [? ? ? ? ? H1 | ? ? ? r1 w1 ? ? H1 Hrej1]; subst;
    rewrite H1; [reflexivity |].
  inversion Hrej1 as [? ? ? ? ? H2 | ? ? ? r2 w2 ? ? H2 Hrej2]; subst;
    rewrite H2; [reflexivity |].
  inversion Hrej2 as [? ? ? ? ? H3 | ? ? ? r3 w3 ? ? H3 Hrej3]; subst;
    rewrite H3; [reflexivity |].
  inversion Hrej3.
Qed.

(** A rejection leaves no table behind, and the listeners as they were. *)
Lemma rejects_at_effects env testData codecs w e w' :
  rejects_at env testData codecs w e w' →
  tables (trace w') = tables (trace w) ∧ listening w' = listening w.
Proof.
  induction 1 as [codec rest w e w' Hrun | codec rest w r w1 e w' Hrun _ IH].
  - destruct (testCompression_effects env codec testData w) as (Hli & _ & Htb & _).
    rewrite Hrun in Hli, Htb. auto.
  - destruct (testCompression_effects env codec testData w) as (Hli & _ & Htb & _).
    rewrite Hrun in Hli, Htb. cbn [snd] in Hli, Htb.
    destruct IH as [-> ->]. auto.
Qed.

(** [compare_with] in terms of the outcome of the three pushes. *)
Lemma compare_with_unfold env testData w :
  compare_with env testData w =
    match run_codecs env testData (batch_start testData w) with
    | (Ok results, w') =>
        (console_log [newline +:+ "Final Results:"];; console_table results) w'
    | (Throw error, w') => console_error ["Test failed:"; message error] w'
    | (Unhandled e, w') => (Unhandled e, w')
    end.
Proof.
  unfold compare_with, batch_start, try_catch, console_log, console_table,
    console_error, emit, mbind, M_bind, bind; cbn [fst snd].
  destruct (run_codecs env testData _) as [[results | e | e] w']; reflexivity.
Qed.

(** [compareCompressions] in terms of the outcome of the fetch. *)
Lemma compareCompressions_unfold env w :
  compareCompressions env w =
    match fetchTestData env (snd (console_log ["Fetching large test data..."] w)) with
    | (Ok testData, w1) => compare_with env testData w1
    | (Throw e, w1) => (Throw e, w1)
    | (Unhandled e, w1) => (Unhandled e, w1)
    end.
Proof. reflexivity. Qed.

Lemma batch_start_effects testData w :
  listens (trace (batch_start testData w)) = listens (trace w) ∧
  tables (trace (batch_start testData w)) = tables (trace w) ∧
  fetches (trace (batch_start testData w)) = fetches (trace w) ∧
  listening (batch_start testData w) = listening w.
Proof.
  unfold batch_start, console_log, emit, mbind, M_bind, bind; cbn [fst snd trace listening].
  rewrite <- !app_assoc, listens_app, tables_app, fetches_app. cbn.
  rewrite !app_nil_r. auto.
Qed.

(** C1, as the code has it.  The three invocations share one try
    block: when one of them rejects, [compareCompressions] prints
    'Test failed:' with the error message and is done.  No later codec
    is run (the Runner invocations are those made up to the rejection),
    no results table is printed, and the call itself does not raise. *)
Theorem compare_stops_at_first_rejection env w testData wf e w' :
  fetchTestData env (snd (console_log ["Fetching large test data..."] w))
    = (Ok testData, wf) →
  rejects_at env testData ["gzip"; "deflate"; "br"] (batch_start testData wf) e w' →
  compareCompressions env w
    = (Ok tt, snd (console_error ["Test failed:"; message e] w')) ∧
  listens (trace (snd (compareCompressions env w))) = listens (trace w') ∧
  tables (trace (snd (compareCompressions env w))) = tables (trace w).
Proof.
  intros Hfetch Hrej.
  destruct (fetchTestData_total env (snd (console_log ["Fetching large test data..."] w)))
    as (d & wf' & E & _ & Htbf & _).
  rewrite Hfetch in E. injection E as <- <-.
  unfold console_log, emit in Htbf; cbn [snd trace] in Htbf.
  rewrite tables_app in Htbf. cbn in Htbf. rewrite app_nil_r in Htbf.
  rewrite compareCompressions_unfold, Hfetch, compare_with_unfold,
    (run_codecs_rejects _ _ _ _ _ Hrej).
  destruct (rejects_at_effects _ _ _ _ _ _ Hrej) as [Htb _].
  destruct (batch_start_effects testData wf) as (_ & Htb0 & _).
  unfold console_error, emit; cbn [fst snd trace].
  rewrite listens_app, tables_app, Htb, Htb0, Htbf. cbn. rewrite !app_nil_r. auto.
Qed.

Lemma compare_stops_at_first_rejection_witness :
  let wf := snd (fetchTestData env_gzip_fails
                   (snd (console_log ["Fetching large test data..."] w0))) in
  let e := {| message := "socket hang up" |} in
  let w' := closed_world env_gzip_fails "gzip" sample_text (batch_start sample_text wf)
              [EvError ["Error:"; "socket hang up"]] in
  fetchTestData env_gzip_fails (snd (console_log ["Fetching large test data..."] w0))
    = (Ok sample_text, wf) ∧
  rejects_at env_gzip_fails sample_text ["gzip"; "deflate"; "br"]
    (batch_start sample_text wf) e w' ∧
  compareCompressions env_gzip_fails w0
    = (Ok tt, snd (console_error ["Test failed:"; message e] w')) ∧
  listens (trace (snd (compareCompressions env_gzip_fails w0))) = listens (trace w') ∧
  tables (trace (snd (compareCompressions env_gzip_fails w0))) = tables (trace w0).
Proof.
  intros wf e w'.
  assert (Hfetch : fetchTestData env_gzip_fails
                     (snd (console_log ["Fetching large test data..."] w0))
                   = (Ok sample_text, wf)) by (vm_compute; reflexivity).
  assert (Hrej : rejects_at env_gzip_fails sample_text ["gzip"; "deflate"; "br"]
                   (batch_start sample_text wf) e w').
  { apply rejects_here. vm_compute. reflexivity. }
  split; [exact Hfetch |]. split; [exact Hrej |].
  exact (compare_stops_at_first_rejection env_gzip_fails w0 sample_text wf e w'
           Hfetch Hrej).
Defined.

(** C1 fails as stated: when the gzip request fails, deflate and br are
    never run, although both would succeed, and no result is printed. *)
Lemma gzip_failure_aborts_batch :
  ∃ w',
    compareCompressions env_gzip_fails w0 = (Ok tt, w') ∧
    listens (trace w') = [("gzip", sample_text, 3500, true)] ∧
    tables (trace w') = [] ∧
    (∃ r2 r3 w2 w3,
       testCompression env_gzip_fails "deflate" sample_text w' = (Ok r2, w2) ∧
       testCompression env_gzip_fails "br" sample_text w2 = (Ok r3, w3)).
Proof.
  eexists. split; [vm_compute; reflexivity |].
  split; [vm_compute; reflexivity |].
  split; [vm_compute; reflexivity |].
  eexists _, _, _, _. split; [vm_compute; reflexivity | vm_compute; reflexivity].
Qed.

(** The results of the codecs that did succeed are not printed either. *)
Example br_failure_discards_results :
  ∃ w',
    compareCompressions env_br_fails w0 = (Ok tt, w') ∧
    listens (trace w')
      = [("gzip", sample_text, 3500, true); ("deflate", sample_text, 3500, true);
         ("br", sample_text, 3500, true)] ∧
    tables (trace w') = [] ∧
    last (trace w') = Some (EvError ["Test failed:"; "socket hang up"]).
Proof.
  eexists. split; [vm_compute; reflexivity |].
  split; [vm_compute; reflexivity |]. split; vm_compute; reflexivity.
Qed.

(** When the gzip server cannot bind, nothing after it runs at all. *)
Example gzip_bind_failure_ends_compare :
  ∃ w',
    compareCompressions env_ports_taken w0 = (Unhandled (EADDRINUSE 3500), w') ∧
    listens (trace w') = [("gzip", sample_text, 3500, false)] ∧
    tables (trace w') = [].
Proof.
  eexists. split; [vm_compute; reflexivity |]. split; vm_compute; reflexivity.
Qed.






Lemma testCompression_Ok_originalSize env codec testData w r w' :
  testCompression env codec testData w = (Ok r, w') →
  originalSize r = formatBytes (Z.of_nat (String.length testData)).
Proof.
  intros Hrun.
  destruct (testCompression_Ok_inv _ _ _ _ _ _ Hrun) as (response & _ & _ & -> & _).
  reflexivity.
Qed.

(** What the three pushes leave behind, however they end. *)
Lemma run_codecs_effects env testData w :
  ∃ l,
    listens (trace (snd (run_codecs env testData w))) = listens (trace w) ++ l ∧
    (∃ port bound rest, l = ("gzip", testData, port, bound) :: rest) ∧
    Forall (λ i, served i = testData) l ∧
    fetches (trace (snd (run_codecs env testData w))) = fetches (trace w) ∧
    tables (trace (snd (run_codecs env testData w))) = tables (trace w) ∧
    listening (snd (run_codecs env testData w)) = listening w ∧
    (∀ results, fst (run_codecs env testData w) = Ok results →
       codec_of <$> l = ["gzip"; "deflate"; "br"] ∧
       length results = 3%nat ∧
       Forall (λ r, originalSize r = formatBytes (Z.of_nat (String.length testData)))
         results).
Proof.
  unfold run_codecs, mbind, M_bind, bind, mret, M_ret, ret.
  destruct (testCompression_effects env "gzip" testData w)
    as (Hl1 & Hf1 & Ht1 & b1 & Hs1).
  destruct (testCompression env "gzip" testData w) as [[r1|e|e] w1] eqn:E1;
    cbn [fst snd] in *.
  2,3: exists [("gzip", testData, port_of env w, b1)];
       repeat split; eauto; try (repeat constructor; fail); try discriminate.
  destruct (testCompression_effects env "deflate" testData w1)
    as (Hl2 & Hf2 & Ht2 & b2 & Hs2).
  destruct (testCompression env "deflate" testData w1) as [[r2|e|e] w2] eqn:E2;
    cbn [fst snd] in *.
  2,3: exists [("gzip", testData, port_of env w, b1);
               ("deflate", testData, port_of env w1, b2)];
       rewrite Hs2, Hs1, Hf2, Hf1, Ht2, Ht1, Hl2, Hl1, <- app_assoc;
       repeat split; eauto; try (repeat constructor; fail); try discriminate.
  destruct (testCompression_effects env "br" testData w2)
    as (Hl3 & Hf3 & Ht3 & b3 & Hs3).
  destruct (testCompression env "br" testData w2) as [[r3|e|e] w3] eqn:E3;
    cbn [fst snd] in *.
  all: exists [("gzip", testData, port_of env w, b1);
               ("deflate", testData, port_of env w1, b2);
               ("br", testData, port_of env w2, b3)];
       rewrite Hs3, Hs2, Hs1, Hf3, Hf2, Hf1, Ht3, Ht2, Ht1, Hl3, Hl2, Hl1, <- !app_assoc;
       repeat split; eauto; try (repeat constructor; fail); try discriminate.
  all: match goal with H : Ok _ = Ok _ |- _ => injection H as <- end.
  - reflexivity.
  - repeat constructor; eapply testCompression_Ok_originalSize; eassumption.
Qed.








(** * Further properties *)

(** ** The Provider, source by source *)

Lemma errors_app tr1 tr2 : errors (tr1 ++ tr2) = errors tr1 ++ errors tr2.
Proof. apply omap_app. Qed.

Lemma logs_app tr1 tr2 : logs (tr1 ++ tr2) = logs tr1 ++ logs tr2.
Proof. apply omap_app. Qed.

Lemma requests_app tr1 tr2 : requests (tr1 ++ tr2) = requests tr1 ++ requests tr2.
Proof. apply omap_app. Qed.

(** X1.  When the first url answers, [fetchTestData] returns its body
    after that single request: the backup url is not fetched, nothing is
    logged and one question has been asked. *)
Theorem fetchTestData_first_source_wins env w response :
  remote_get env (tick w) "https://www.gutenberg.org/files/100/100-0.txt"
    = inr response →
  ∃ w',
    fetchTestData env w = (Ok (data response), w') ∧
    fetches (trace w') = fetches (trace w)
                         ++ ["https://www.gutenberg.org/files/100/100-0.txt"] ∧
    logs (trace w') = logs (trace w) ∧
    errors (trace w') = errors (trace w) ∧
    tick w' = S (tick w).
Proof.
  intros H1. eexists. split.
  - run_fetch. rewrite H1. reflexivity.
  - cbn [trace tick]. rewrite fetches_app, logs_app, errors_app. cbn.
    rewrite !app_nil_r. auto.
Qed.

Lemma fetchTestData_first_source_wins_witness :
  remote_get env_ok (tick w0) "https://www.gutenberg.org/files/100/100-0.txt"
    = inr {| headers := ∅; data := sample_text |} ∧
  ∃ w',
    fetchTestData env_ok w0 = (Ok sample_text, w') ∧
    fetches (trace w') = fetches (trace w0)
                         ++ ["https://www.gutenberg.org/files/100/100-0.txt"] ∧
    logs (trace w') = logs (trace w0) ∧
    errors (trace w') = errors (trace w0) ∧
    tick w' = S (tick w0).
Proof.
  assert (H1 : remote_get env_ok (tick w0)
                 "https://www.gutenberg.org/files/100/100-0.txt"
               = inr {| headers := ∅; data := sample_text |}) by reflexivity.
  split; [exact H1 |].
  exact (fetchTestData_first_source_wins env_ok w0 _ H1).
Defined.

(** X2.  When the first url fails and the backup answers,
    [fetchTestData] logs the failure of the first url, returns the body
    of the backup, and prints no error. *)
Theorem fetchTestData_backup_source env w e1 response :
  remote_get env (tick w) "https://www.gutenberg.org/files/100/100-0.txt" = inl e1 →
  remote_get env (S (tick w)) "https://www.gutenberg.org/cache/epub/100/pg100.txt"
    = inr response →
  ∃ w',
    fetchTestData env w = (Ok (data response), w') ∧
    fetches (trace w') = fetches (trace w)
                         ++ ["https://www.gutenberg.org/files/100/100-0.txt";
                             "https://www.gutenberg.org/cache/epub/100/pg100.txt"] ∧
    logs (trace w') = logs (trace w)
                      ++ [["Failed to fetch from "
                           +:+ "https://www.gutenberg.org/files/100/100-0.txt"
                           +:+ ", trying next source..."]] ∧
    errors (trace w') = errors (trace w).
Proof.
  intros H1 H2. eexists. split.
  - run_fetch. rewrite H1. cbn [fst snd tick clock listening trace message].
    rewrite H2. reflexivity.
  - cbn [trace]. rewrite <- !app_assoc, fetches_app, logs_app, errors_app. cbn.
    rewrite !app_nil_r. auto.
Qed.

Lemma fetchTestData_backup_source_witness :
  remote_get env_backup_only (tick w0) "https://www.gutenberg.org/files/100/100-0.txt"
    = inl {| message := "Request failed with status code 404" |} ∧
  remote_get env_backup_only (S (tick w0))
    "https://www.gutenberg.org/cache/epub/100/pg100.txt"
    = inr {| headers := ∅; data := sample_text |} ∧
  ∃ w',
    fetchTestData env_backup_only w0 = (Ok sample_text, w') ∧
    fetches (trace w') = fetches (trace w0)
                         ++ ["https://www.gutenberg.org/files/100/100-0.txt";
                             "https://www.gutenberg.org/cache/epub/100/pg100.txt"] ∧
    logs (trace w') = logs (trace w0)
                      ++ [["Failed to fetch from "
                           +:+ "https://www.gutenberg.org/files/100/100-0.txt"
                           +:+ ", trying next source..."]] ∧
    errors (trace w') = errors (trace w0).
Proof.
  assert (H1 : remote_get env_backup_only (tick w0)
                 "https://www.gutenberg.org/files/100/100-0.txt"
               = inl {| message := "Request failed with status code 404" |})
    by (vm_compute; reflexivity).
  assert (H2 : remote_get env_backup_only (S (tick w0))
                 "https://www.gutenberg.org/cache/epub/100/pg100.txt"
               = inr {| headers := ∅; data := sample_text |})
    by (vm_compute; reflexivity).
  split; [exact H1 |]. split; [exact H2 |].
  exact (fetchTestData_backup_source env_backup_only w0 _ _ H1 H2).
Defined.

(** X3.  The loop over the sources, for any list of them: when every
    request fails it throws 'All data sources failed', having fetched
    each source once, in order, and logged one line per source. *)
Theorem fetch_from_all_fail env sources w :
  (∀ t url, ∃ e, remote_get env t url = inl e) →
  ∃ w',
    fetch_from env sources w
      = (Throw {| message := "All data sources failed" |}, w') ∧
    fetches (trace w') = fetches (trace w) ++ sources ∧
    logs (trace w')
      = logs (trace w)
        ++ ((λ url, ["Failed to fetch from " +:+ url +:+ ", trying next source..."])
              <$> sources) ∧
    tick w' = (tick w + length sources)%nat ∧
    listening w' = listening w.
Proof.
  intros Hoff. revert w. induction sources as [|url rest IH]; intros w.
  - exists w. cbn. rewrite !app_nil_r. repeat split; lia.
  - destruct (Hoff (tick w) url) as [e He].
    set (w1 := {| tick := S (tick w); clock := (clock w + elapsed env (tick w))%N;
                  listening := listening w;
                  trace := (trace w ++ [EvFetch url]) ++
                    [EvLog ["Failed to fetch from " +:+ url
                              +:+ ", trying next source..."]] |}).
    destruct (IH w1) as (w' & Hrun & Hf & Hl & Ht & Hli).
    exists w'. split.
    + cbn [fetch_from].
      unfold try_catch, axios_get_remote, console_log, throw, emit, ask,
        mbind, M_bind, bind, mret, M_ret, ret;
        cbn [fst snd tick clock listening trace].
      rewrite He. exact Hrun.
    + rewrite Hf, Hl, Ht, Hli. unfold w1; cbn [trace tick listening].
      rewrite !fetches_app, !logs_app. cbn. rewrite !app_nil_r, <- !app_assoc.
      repeat split; try reflexivity. lia.
Qed.

Lemma fetch_from_all_fail_witness :
  (∀ t url, ∃ e, remote_get env_offline t url = inl e) ∧
  ∃ w',
    fetch_from env_offline urls w0
      = (Throw {| message := "All data sources failed" |}, w') ∧
    fetches (trace w') = fetches (trace w0) ++ urls ∧
    logs (trace w')
      = logs (trace w0)
        ++ ((λ url, ["Failed to fetch from " +:+ url +:+ ", trying next source..."])
              <$> urls) ∧
    tick w' = (tick w0 + length urls)%nat ∧
    listening w' = listening w0.
Proof.
  assert (Hoff : ∀ (t : nat) (url : string), ∃ e, remote_get env_offline t url = inl e)
    by (intros t url; eexists; reflexivity).
  split; [exact Hoff |].
  exact (fetch_from_all_fail env_offline urls w0 Hoff).
Defined.

(** X4.  Whatever the sources do, [fetchTestData] returns a payload
    and never throws.  It asks the first url, and the backup url only
    after that; it prints an error only when it falls back to the
    generated payload; and it opens no listener. *)
Theorem fetchTestData_never_rejects env w :
  ∃ d w',
    fetchTestData env w = (Ok d, w') ∧
    listening w' = listening w ∧
    ((fetches (trace w') = fetches (trace w)
                           ++ ["https://www.gutenberg.org/files/100/100-0.txt"] ∧
      errors (trace w') = errors (trace w)) ∨
     (fetches (trace w') = fetches (trace w)
                           ++ ["https://www.gutenberg.org/files/100/100-0.txt";
                               "https://www.gutenberg.org/cache/epub/100/pg100.txt"] ∧
      (errors (trace w') = errors (trace w) ∨
       (errors (trace w')
          = errors (trace w) ++ [["Error fetching test data:"; "All data sources failed"]] ∧
        5 * 1024 * 1024 ≤ Z.of_nat (String.length d))))).
Proof.
  destruct (remote_get env (tick w) "https://www.gutenberg.org/files/100/100-0.txt")
    as [e1|r1] eqn:H1;
  [destruct (remote_get env (S (tick w))
               "https://www.gutenberg.org/cache/epub/100/pg100.txt")
     as [e2|r2] eqn:H2 |].
  - rewrite (fetchTestData_offline env w e1 e2 H1 H2).
    destruct (generateCompressedTestData_effects env (5 * 1024 * 1024)
                (offline_world env w)) as (d & w' & -> & Hlen & Htr & Hli).
    exists d, w'. rewrite Htr, Hli. unfold offline_world; cbn [trace listening].
    rewrite fetches_app, errors_app. cbn.
    split; [reflexivity |]. split; [reflexivity |]. right. split; [reflexivity |].
    right. split; [reflexivity | exact Hlen].
  - eexists _, _. split; [| split].
    + run_fetch. rewrite H1. cbn [fst snd tick clock listening trace message].
      rewrite H2. reflexivity.
    + reflexivity.
    + right. cbn [trace]. rewrite <- !app_assoc, fetches_app, errors_app. cbn.
      rewrite !app_nil_r. auto.
  - eexists _, _. split; [| split].
    + run_fetch. rewrite H1. reflexivity.
    + reflexivity.
    + left. cbn [trace]. rewrite fetches_app, errors_app. cbn.
      rewrite !app_nil_r. auto.
Qed.

(** ** The synthetic payload, at its edges *)

(** The loop is not entered once [result] is long enough. *)
Lemma generate_loop_done env size result w :
  size ≤ Z.of_nat (String.length result) →
  generate_loop env size result w = (result, w).
Proof.
  intros Hdone. funelim (generate_loop env size result w); [lia | reflexivity].
Qed.

(** X5.  For a target size of zero or less the generator returns the
    empty string at once: no random number is drawn and the world is
    left as it was. *)
Theorem generateCompressedTestData_nonpositive env size w :
  size ≤ 0 →
  generateCompressedTestData env size w = (Ok "", w).
Proof.
  intros Hsize. unfold generateCompressedTestData.
  rewrite generate_loop_done by (simpl; lia). reflexivity.
Qed.

Lemma generateCompressedTestData_nonpositive_witness :
  0 ≤ 0 ∧ generateCompressedTestData env_offline 0 w0 = (Ok "", w0).
Proof.
  assert (Hsize : 0 ≤ 0) by lia.
  split; [exact Hsize |].
  exact (generateCompressedTestData_nonpositive env_offline 0 w0 Hsize).
Defined.

Lemma words_short : Forall (λ s, (String.length s ≤ 11)%nat) words.
Proof. unfold words. repeat constructor; simpl; lia. Qed.

Lemma picked_word_short (i : Z) :
  (String.length (JS.string_of (JS.index words i)) ≤ 11)%nat.
Proof.
  unfold JS.index. destruct (i <? 0); [simpl; lia |].
  destruct (words !! Z.to_nat i) as [s|] eqn:E; [| simpl; lia].
  exact (proj1 (Forall_lookup _ _) words_short _ _ E).
Qed.

(** One pass adds at most a word of eleven letters, a space and a line
    break. *)
Lemma generate_body_bounded result r1 r2 :
  (String.length (generate_body result r1 r2) ≤ String.length result + 13)%nat.
Proof.
  unfold generate_body.
  pose proof (picked_word_short (Qfloor (r1 * inject_Z (Z.of_nat (length words))))) as Hw.
  destruct (Qlt_le_dec r2 (1 # 10)); rewrite !length_app_string;
    change (String.length " ") with 1%nat;
    try change (String.length newline) with 1%nat; lia.
Qed.

Lemma generate_loop_bounded env size result w :
  Z.of_nat (String.length (fst (generate_loop env size result w)))
  ≤ Z.max (Z.of_nat (String.length result)) (size + 12).
Proof.
  funelim (generate_loop env size result w).
  - pose proof (generate_body_bounded result (Math_random env (tick w))
                  (Math_random env (tick (snd (ask env w))))) as Hb.
    change (generate_body result _ _) with (fst (generate_iter env result w)) in Hb.
    lia.
  - simpl. lia.
Qed.

(** X6.  For a positive target size the payload overshoots the target
    by twelve characters at most. *)
Theorem generateCompressedTestData_overshoot env size w :
  0 < size →
  ∃ d w',
    generateCompressedTestData env size w = (Ok d, w') ∧
    size ≤ Z.of_nat (String.length d) ≤ size + 12.
Proof.
  intros Hsize. unfold generateCompressedTestData.
  destruct (generate_loop_spec env size "" w) as (Hlo & _).
  pose proof (generate_loop_bounded env size "" w) as Hhi.
  destruct (generate_loop env size "" w) as [d w'].
  exists d, w'. cbn [fst String.length] in *. split; [reflexivity | lia].
Qed.

Lemma generateCompressedTestData_overshoot_witness :
  0 < 40 ∧
  ∃ d w',
    generateCompressedTestData env_offline 40 w0 = (Ok d, w') ∧
    40 ≤ Z.of_nat (String.length d) ≤ 40 + 12.
Proof.
  assert (Hsize : 0 < 40) by lia.
  split; [exact Hsize |].
  exact (generateCompressedTestData_overshoot env_offline 40 w0 Hsize).
Defined.

(** X7.  With a draw in [0, 1) the word index stays inside the word
    list: a pass appends one of the listed words and a space (and at
    most a line break), never 'undefined'. *)
Theorem generate_body_picks_listed_word result r1 r2 :
  (0 <= r1 < 1)%Q →
  ∃ word,
    word ∈ words ∧
    JS.index words (Qfloor (r1 * inject_Z (Z.of_nat (length words)))) = Some word ∧
    (generate_body result r1 r2 = result +:+ (word +:+ " ") ∨
     generate_body result r1 r2 = (result +:+ (word +:+ " ")) +:+ newline).
Proof.
  intros [Hlo Hhi].
  set (i := Qfloor (r1 * inject_Z (Z.of_nat (length words)))).
  assert (Hi : 0 ≤ i < 23).
  { unfold i. change (inject_Z (Z.of_nat (length words))) with 23%Q. split.
    - change 0 with (Qfloor 0). apply Qfloor_resp_le. lra.
    - rewrite Zlt_Qlt. apply Qle_lt_trans with (r1 * 23)%Q; [apply Qfloor_le |].
      change (inject_Z 23) with 23%Q. lra. }
  assert (Hlookup : is_Some (words !! Z.to_nat i)).
  { apply lookup_lt_is_Some. change (length words) with 23%nat. lia. }
  destruct Hlookup as [word Hword].
  assert (Hindex : JS.index words i = Some word).
  { unfold JS.index. destruct (Z.ltb_spec i 0); [lia | exact Hword]. }
  exists word. split; [| split].
  - apply list_elem_of_lookup. eauto.
  - exact Hindex.
  - unfold generate_body. fold i. rewrite Hindex. cbn [JS.string_of].
    destruct (Qlt_le_dec r2 (1 # 10)); auto.
Qed.

Lemma generate_body_picks_listed_word_witness :
  (0 <= 1 # 2 < 1)%Q ∧
  ∃ word,
    word ∈ words ∧
    JS.index words (Qfloor ((1 # 2) * inject_Z (Z.of_nat (length words)))) = Some word ∧
    (generate_body "" (1 # 2) (1 # 2) = "" +:+ (word +:+ " ") ∨
     generate_body "" (1 # 2) (1 # 2) = ("" +:+ (word +:+ " ")) +:+ newline).
Proof.
  assert (Hr : (0 <= 1 # 2 < 1)%Q) by (split; vm_compute; [discriminate | reflexivity]).
  split; [exact Hr |].
  exact (generate_body_picks_listed_word "" (1 # 2) (1 # 2) Hr).
Defined.

(** ** formatBytes, unit by unit *)

Lemma hundredths_integer (z : Z) :
  JS.hundredths (inject_Z z / inject_Z 1) = 100 * z.
Proof.
  unfold JS.hundredths.
  assert (E : (inject_Z z / inject_Z 1 * 100 + (1 # 2) == (200 * z + 1) # 2)%Q).
  { unfold Qeq, Qdiv, Qmult, Qplus, Qinv, inject_Z; simpl. lia. }
  rewrite (Qfloor_comp _ _ E). unfold Qfloor.
  rewrite <- (Z.div_unique (200 * z + 1) 2 (100 * z) 1); lia.
Qed.

Lemma string_of_hundredths_integer (z : Z) :
  JS.string_of_hundredths (100 * z) = pretty z.
Proof.
  unfold JS.string_of_hundredths.
  replace ((100 * z) mod 100) with 0
    by (symmetry; rewrite Z.mul_comm; apply Z.mod_mul; lia).
  replace (100 * z / 100) with z
    by (symmetry; rewrite Z.mul_comm; apply Z.div_mul; lia).
  reflexivity.
Qed.

(** X8.  A size below 1024 is printed as it is, in 'Bytes', without
    decimals. *)
Theorem formatBytes_below_1024 (bytes : Z) :
  1 ≤ bytes < 1024 →
  formatBytes bytes = pretty bytes +:+ " Bytes".
Proof.
  intros [Hlo Hhi]. unfold formatBytes.
  destruct (Z.eqb_spec bytes 0) as [?|_]; [lia |].
  destruct (Z.ltb_spec bytes 0) as [?|_]; [lia |].
  assert (Hi : unit_index bytes = 0).
  { unfold unit_index. apply Z.div_small. split; [apply Z.log2_nonneg |].
    apply Z.log2_lt_pow2; [lia |]. exact Hhi. }
  cbv zeta. rewrite Hi. change (1024 ^ 0) with 1.
  rewrite hundredths_integer, string_of_hundredths_integer. reflexivity.
Qed.

Lemma formatBytes_below_1024_witness :
  1 ≤ 38 < 1024 ∧ formatBytes 38 = pretty 38 +:+ " Bytes".
Proof.
  assert (Hb : 1 ≤ 38 < 1024) by lia.
  split; [exact Hb |].
  exact (formatBytes_below_1024 38 Hb).
Defined.

(** X9.  From 1024^4 on the unit index runs past the end of the unit
    list: the unit printed is 'undefined'. *)
Theorem formatBytes_past_units (bytes : Z) :
  1024 ^ 4 ≤ bytes →
  4 ≤ unit_index bytes ∧
  JS.index sizes (unit_index bytes) = None ∧
  ∃ number, formatBytes bytes = number +:+ " " +:+ "undefined".
Proof.
  intros Hb.
  assert (Hi : 4 ≤ unit_index bytes).
  { unfold unit_index. apply Z.div_le_lower_bound; [lia |].
    apply Z.log2_le_pow2; [lia |]. exact Hb. }
  assert (Hnone : JS.index sizes (unit_index bytes) = None).
  { unfold JS.index. destruct (Z.ltb_spec (unit_index bytes) 0); [reflexivity |].
    apply lookup_ge_None. change (length sizes) with 4%nat. lia. }
  split; [exact Hi |]. split; [exact Hnone |].
  unfold formatBytes.
  destruct (Z.eqb_spec bytes 0) as [?|_]; [lia |].
  destruct (Z.ltb_spec bytes 0) as [?|_]; [lia |].
  cbv zeta. rewrite Hnone. eexists. reflexivity.
Qed.

Lemma formatBytes_past_units_witness :
  1024 ^ 4 ≤ 5 * 1024 ^ 4 ∧
  4 ≤ unit_index (5 * 1024 ^ 4) ∧
  JS.index sizes (unit_index (5 * 1024 ^ 4)) = None ∧
  ∃ number, formatBytes (5 * 1024 ^ 4) = number +:+ " " +:+ "undefined".
Proof.
  assert (Hb : 1024 ^ 4 ≤ 5 * 1024 ^ 4) by lia.
  split; [exact Hb |].
  exact (formatBytes_past_units (5 * 1024 ^ 4) Hb).
Defined.

(** The unit chosen brackets the size: 1024^i <= bytes < 1024^(i+1). *)
Lemma unit_index_brackets (bytes : Z) :
  1 ≤ bytes →
  0 ≤ unit_index bytes ∧
  1024 ^ unit_index bytes ≤ bytes < 1024 * 1024 ^ unit_index bytes.
Proof.
  intros Hb. unfold unit_index.
  pose proof (Z.log2_nonneg bytes) as Hl0.
  destruct (Z.log2_spec bytes ltac:(lia)) as [Hlo Hhi].
  set (l := Z.log2 bytes) in *. set (i := l / 10).
  assert (Hi : 0 ≤ i) by (apply Z.div_pos; lia).
  pose proof (Z.div_mod l 10 ltac:(lia)) as Hdm.
  pose proof (Z.mod_pos_bound l 10 ltac:(lia)) as Hm. fold i in Hdm.
  assert (Hpow : 1024 ^ i = 2 ^ (10 * i)).
  { change 1024 with (2 ^ 10). rewrite <- Z.pow_mul_r by lia. reflexivity. }
  split; [exact Hi |]. rewrite Hpow. split.
  - apply Z.le_trans with (2 ^ l); [| exact Hlo].
    apply Z.pow_le_mono_r; lia.
  - apply Z.lt_le_trans with (2 ^ Z.succ l); [exact Hhi |].
    change 1024 with (2 ^ 10). rewrite <- Z.pow_add_r by lia.
    apply Z.pow_le_mono_r; lia.
Qed.

(** X10.  For every size from 1 on, the number printed before the unit
    lies between 1 and 1024: it is [n / 100] for a count of hundredths
    [n] from 100 to 102400.  The upper end is reached: a size just
    below a power of 1024 is rounded up to 1024 of the smaller unit. *)
Theorem formatBytes_number_range (bytes : Z) :
  1 ≤ bytes →
  ∃ n,
    100 ≤ n ≤ 102400 ∧
    formatBytes bytes
      = JS.string_of_hundredths n +:+ " "
          +:+ JS.string_of (JS.index sizes (unit_index bytes)).
Proof.
  intros Hb. destruct (unit_index_brackets bytes Hb) as (Hi & Hlo & Hhi).
  unfold formatBytes.
  destruct (Z.eqb_spec bytes 0) as [?|_]; [lia |].
  destruct (Z.ltb_spec bytes 0) as [?|_]; [lia |].
  cbv zeta. set (K := 1024 ^ unit_index bytes) in *.
  eexists. split; [| reflexivity].
  assert (HK : (0 < inject_Z K)%Q).
  { change 0%Q with (inject_Z 0). rewrite <- Zlt_Qlt. lia. }
  assert (H1 : (1 <= inject_Z bytes / inject_Z K)%Q).
  { apply Qle_shift_div_l; [exact HK |]. rewrite Qmult_1_l. now rewrite <- Zle_Qle. }
  assert (H2 : (inject_Z bytes / inject_Z K < 1024)%Q).
  { apply Qlt_shift_div_r; [exact HK |].
    change 1024%Q with (inject_Z 1024). rewrite <- inject_Z_mult, <- Zlt_Qlt. exact Hhi. }
  set (x := (inject_Z bytes / inject_Z K)%Q) in *. clearbody x.
  unfold JS.hundredths. split.
  - assert (Hf : Qfloor 100 ≤ Qfloor (x * 100 + (1 # 2)))
      by (apply Qfloor_resp_le; lra).
    exact Hf.
  - assert (Qfloor (x * 100 + (1 # 2)) < 102401); [| lia].
    rewrite Zlt_Qlt. apply Qle_lt_trans with (x * 100 + (1 # 2))%Q; [apply Qfloor_le |].
    change (inject_Z 102401) with 102401%Q. lra.
Qed.

Lemma formatBytes_number_range_witness :
  1 ≤ 1048575 ∧
  ∃ n,
    100 ≤ n ≤ 102400 ∧
    formatBytes 1048575
      = JS.string_of_hundredths n +:+ " "
          +:+ JS.string_of (JS.index sizes (unit_index 1048575)).
Proof.
  assert (Hb : 1 ≤ 1048575) by lia.
  split; [exact Hb |].
  exact (formatBytes_number_range 1048575 Hb).
Defined.

Example formatBytes_rounds_up_to_1024 : formatBytes 1048575 = "1024 KB".
Proof. vm_compute. reflexivity. Qed.

(** ** The timer *)

(** [process.hrtime(start)] after [start = process.hrtime()]
    gives back the time the clock has advanced in between, split into
    whole seconds and nanoseconds below 10^9; reading the clock changes
    nothing. *)
Theorem hrtime_since_measures_elapsed (w1 w2 : World) :
  (clock w1 ≤ clock w2)%N →
  ∃ start s ns,
    hrtime w1 = (Ok start, w1) ∧
    hrtime_since start w2 = (Ok (s, ns), w2) ∧
    0 ≤ s ∧ 0 ≤ ns < 10 ^ 9 ∧
    s * 10 ^ 9 + ns = Z.of_N (clock w2) - Z.of_N (clock w1).
Proof.
  intros Hle. destruct (hrtime_diff_spec _ _ Hle) as (Hs & Hns & Hsum).
  exists (Z.of_N (clock w1) / 10 ^ 9, Z.of_N (clock w1) mod 10 ^ 9),
    (fst (hrtime_diff (clock w1) (clock w2))),
    (snd (hrtime_diff (clock w1) (clock w2))).
  split; [reflexivity |]. split; [| auto].
  unfold hrtime_since, hrtime_diff; cbn [fst snd].
  destruct (_ <? 0); reflexivity.
Qed.

Lemma hrtime_since_measures_elapsed_witness :
  (clock w0 ≤ clock (snd (ask env_ok w0)))%N ∧
  ∃ start s ns,
    hrtime w0 = (Ok start, w0) ∧
    hrtime_since start (snd (ask env_ok w0)) = (Ok (s, ns), snd (ask env_ok w0)) ∧
    0 ≤ s ∧ 0 ≤ ns < 10 ^ 9 ∧
    s * 10 ^ 9 + ns = Z.of_N (clock (snd (ask env_ok w0))) - Z.of_N (clock w0).
Proof.
  assert (Hle : (clock w0 ≤ clock (snd (ask env_ok w0)))%N)
    by (vm_compute; discriminate).
  split; [exact Hle |].
  exact (hrtime_since_measures_elapsed w0 (snd (ask env_ok w0)) Hle).
Defined.




(** ** One Runner invocation, at its edges *)

(** X12.  With an empty payload the ratio divides by zero and no error
    is raised: the result reports '0 Bytes' and a ratio of 'NaN%' when
    the response body is empty too, and '-Infinity%' otherwise. *)
Theorem empty_payload_ratio env codec w r w' :
  testCompression env codec "" w = (Ok r, w') →
  ∃ response,
    answer env codec "" w = inr response ∧
    originalSize r = "0 Bytes" ∧
    compressionRatio r
      = match data response with
        | [] => "NaN%"
        | _ :: _ => "-Infinity%"
        end.
Proof.
  intros Hrun.
  destruct (testCompression_Ok_inv _ _ _ _ _ _ Hrun) as (response & _ & Ha & -> & _).
  exists response. split; [exact Ha |]. split; [reflexivity |].
  unfold make_result; cbn [compressionRatio].
  destruct (data response) as [|b rest]; [reflexivity |].
  cbn [length String.length]. rewrite Nat2Z.inj_succ.
  set (c := Z.of_nat (length rest)).
  assert (Hc : 0 ≤ c) by apply Nat2Z.is_nonneg.
  unfold JS.div. change (Qeq_bool (inject_Z (Z.of_nat 0)) 0) with true. cbv iota.
  assert (Hneg : (inject_Z (Z.of_nat 0) - inject_Z (Z.succ c) < 0)%Q).
  { change (inject_Z (Z.of_nat 0)) with 0%Q.
    assert (0 < inject_Z (Z.succ c))%Q
      by (change 0%Q with (inject_Z 0); rewrite <- Zlt_Qlt; lia).
    lra. }
  destruct (Qeq_bool _ 0) eqn:E.
  - apply Qeq_bool_eq in E. rewrite E in Hneg. discriminate Hneg.
  - destruct (Qlt_le_dec _ 0) as [_|Hge]; [reflexivity |].
    exfalso. apply (Qlt_not_le _ _ Hneg Hge).
Qed.

Lemma empty_payload_ratio_witness :
  let r := make_result "" (echo "gzip") (duration_of env_ok w0) in
  testCompression env_ok "gzip" "" w0 = (Ok r, closed_world env_ok "gzip" "" w0 []) ∧
  ∃ response,
    answer env_ok "gzip" "" w0 = inr response ∧
    originalSize r = "0 Bytes" ∧
    compressionRatio r
      = match data response with
        | [] => "NaN%"
        | _ :: _ => "-Infinity%"
        end.
Proof.
  intros r.
  assert (Hrun : testCompression env_ok "gzip" "" w0
                 = (Ok r, closed_world env_ok "gzip" "" w0 []))
    by (vm_compute; reflexivity).
  split; [exact Hrun |].
  exact (empty_payload_ratio env_ok "gzip" w0 r _ Hrun).
Defined.

Lemma toFixed2_Q_negative (x : Q) :
  (x < 0)%Q → JS.toFixed2_Q x = "-" +:+ JS.fixed2_digits (JS.hundredths (- x)).
Proof.
  intros Hx. unfold JS.toFixed2_Q.
  destruct (Qlt_le_dec x 0) as [_|Hge]; [reflexivity |].
  exfalso. apply (Qlt_not_le _ _ Hx Hge).
Qed.

(** X13.  When the response body is longer than a non-empty payload,
    nothing is clamped: both the ratio and the savings are printed with
    a minus sign. *)
Theorem expansion_is_reported_negative env codec testData w r w' response :
  testCompression env codec testData w = (Ok r, w') →
  answer env codec testData w = inr response →
  (0 < String.length testData < length (data response))%nat →
  ∃ ratio savings,
    compressionRatio r = ("-" +:+ ratio) +:+ "%" ∧
    savingsInMB r = ("-" +:+ savings) +:+ " MB".
Proof.
  intros Hrun Ha [Hpos Hbig].
  destruct (testCompression_Ok_inv _ _ _ _ _ _ Hrun) as (response' & _ & Ha' & -> & _).
  rewrite Ha in Ha'. injection Ha' as <-.
  unfold make_result; cbn [compressionRatio savingsInMB].
  set (o := inject_Z (Z.of_nat (String.length testData))).
  set (c := inject_Z (Z.of_nat (length (data response)))).
  assert (Ho : (0 < o)%Q)
    by (unfold o; change 0%Q with (inject_Z 0); rewrite <- Zlt_Qlt; lia).
  assert (Hoc : (o < c)%Q) by (unfold o, c; rewrite <- Zlt_Qlt; lia).
  assert (Hne : Qeq_bool o 0 = false).
  { destruct (Qeq_bool o 0) eqn:E; [| reflexivity].
    apply Qeq_bool_eq in E. rewrite E in Ho. discriminate Ho. }
  assert (Hq : ((o - c) / o < 0)%Q).
  { apply Qlt_shift_div_r; [exact Ho |]. clearbody o c. lra. }
  assert (Hratio : ((o - c) / o * 100 < 0)%Q).
  { set (q := ((o - c) / o)%Q) in *. clearbody q. lra. }
  assert (Hsave : ((o - c) / (1024 * 1024) < 0)%Q).
  { apply Qlt_shift_div_r; [reflexivity |]. clearbody o c. lra. }
  unfold JS.div. rewrite Hne. cbn [JS.scale JS.toFixed2].
  rewrite (toFixed2_Q_negative _ Hratio), (toFixed2_Q_negative _ Hsave).
  eexists _, _. split; reflexivity.
Qed.

Lemma expansion_is_reported_negative_witness :
  let r := make_result "to be" (echo "gzip") (duration_of env_expands w0) in
  testCompression env_expands "gzip" "to be" w0
    = (Ok r, closed_world env_expands "gzip" "to be" w0 []) ∧
  answer env_expands "gzip" "to be" w0 = inr (echo "gzip") ∧
  (0 < String.length "to be" < length (data (echo "gzip")))%nat ∧
  ∃ ratio savings,
    compressionRatio r = ("-" +:+ ratio) +:+ "%" ∧
    savingsInMB r = ("-" +:+ savings) +:+ " MB".
Proof.
  intros r.
  assert (Hrun : testCompression env_expands "gzip" "to be" w0
                 = (Ok r, closed_world env_expands "gzip" "to be" w0 []))
    by (vm_compute; reflexivity).
  assert (Ha : answer env_expands "gzip" "to be" w0 = inr (echo "gzip"))
    by (vm_compute; reflexivity).
  assert (Hlen : (0 < String.length "to be" < length (data (echo "gzip")))%nat)
    by (cbn; lia).
  split; [exact Hrun |]. split; [exact Ha |]. split; [exact Hlen |].
  exact (expansion_is_reported_negative env_expands "gzip" "to be" w0 r _ _ Hrun Ha Hlen).
Defined.

Example expansion_sample :
  let r := make_result "to be" (echo "gzip") (duration_of env_expands w0) in
  compressionRatio r = "-100.00%" ∧ savingsInMB r = "-0.00 MB".
Proof. vm_compute. split; reflexivity. Qed.

(** X14.  An invocation whose bind succeeds sends exactly one request:
    to the port it listens on, with the codec under test as the only
    accepted encoding. *)
Theorem testCompression_requests_own_port env codec testData w :
  bind_error env w = None →
  requests (trace (snd (testCompression env codec testData w)))
  = requests (trace w) ++ [(port_of env w, codec)].
Proof.
  intros Hb.
  destruct (testCompression_cases env codec testData w)
    as [(e & Hb' & _) | [(e & _ & _ & ->) | (response & _ & _ & ->)]];
    [congruence | |]; cbn [snd].
  - unfold closed_world; cbn [trace]. rewrite !requests_app. reflexivity.
  - unfold closed_world; cbn [trace]. rewrite !requests_app. reflexivity.
Qed.

Lemma testCompression_requests_own_port_witness :
  bind_error env_ok w0 = None ∧
  requests (trace (snd (testCompression env_ok "br" sample_text w0)))
  = requests (trace w0) ++ [(port_of env_ok w0, "br")].
Proof.
  assert (Hb : bind_error env_ok w0 = None) by (vm_compute; reflexivity).
  split; [exact Hb |].
  exact (testCompression_requests_own_port env_ok "br" sample_text w0 Hb).
Defined.

(** X15.  When the request fails, the invocation rejects with the very
    error axios raised, having printed 'Error:' and its message once;
    the server is closed all the same and no table is printed. *)
Theorem request_failure_is_rethrown env codec testData w e :
  bind_error env w = None →
  answer env codec testData w = inl e →
  ∃ w',
    testCompression env codec testData w = (Throw e, w') ∧
    errors (trace w') = errors (trace w) ++ [["Error:"; message e]] ∧
    last (trace w') = Some (EvClose (port_of env w)) ∧
    tables (trace w') = tables (trace w) ∧
    listening w' = listening w.
Proof.
  intros Hb Ha. eexists. split.
  - exact (testCompression_request_failed env codec testData w e Hb Ha).
  - rewrite closed_world_listening by now apply bind_ok_port_free.
    unfold closed_world; cbn [trace].
    rewrite !errors_app, !tables_app, !app_assoc, last_snoc. cbn.
    rewrite !app_nil_r. auto.
Qed.

Lemma request_failure_is_rethrown_witness :
  let e := {| message := "socket hang up" |} in
  bind_error env_gzip_fails w0 = None ∧
  answer env_gzip_fails "gzip" sample_text w0 = inl e ∧
  ∃ w',
    testCompression env_gzip_fails "gzip" sample_text w0 = (Throw e, w') ∧
    errors (trace w') = errors (trace w0) ++ [["Error:"; message e]] ∧
    last (trace w') = Some (EvClose (port_of env_gzip_fails w0)) ∧
    tables (trace w') = tables (trace w0) ∧
    listening w' = listening w0.
Proof.
  intros e.
  assert (Hb : bind_error env_gzip_fails w0 = None) by (vm_compute; reflexivity).
  assert (Ha : answer env_gzip_fails "gzip" sample_text w0 = inl e)
    by (vm_compute; reflexivity).
  split; [exact Hb |]. split; [exact Ha |].
  exact (request_failure_is_rethrown env_gzip_fails "gzip" sample_text w0 e Hb Ha).
Defined.

(** X16.  The [algorithm] of a result is never the empty string:
    whatever the response headers hold, it is a non-empty encoding or
    'none'. *)
Theorem algorithm_never_empty env codec testData w r w' :
  testCompression env codec testData w = (Ok r, w') →
  algorithm r ≠ "".
Proof.
  intros Hrun.
  destruct (testCompression_Ok_inv _ _ _ _ _ _ Hrun) as (response & _ & _ & -> & _).
  unfold make_result; cbn [algorithm]. unfold JS.or_else.
  destruct (headers response !! "content-encoding") as [encoding|]; [| discriminate].
  destruct (decide (encoding = "")); [discriminate | assumption].
Qed.

Lemma algorithm_never_empty_witness :
  let r := make_result sample_text (echo "") (duration_of env_empty_header w0) in
  testCompression env_empty_header "gzip" sample_text w0
    = (Ok r, closed_world env_empty_header "gzip" sample_text w0 []) ∧
  algorithm r ≠ "".
Proof.
  intros r.
  assert (Hrun : testCompression env_empty_header "gzip" sample_text w0
                 = (Ok r, closed_world env_empty_header "gzip" sample_text w0 []))
    by (vm_compute; reflexivity).
  split; [exact Hrun |].
  exact (algorithm_never_empty env_empty_header "gzip" sample_text w0 r _ Hrun).
Defined.

Example empty_header_is_none :
  algorithm (make_result sample_text (echo "") (duration_of env_empty_header w0))
  = "none".
Proof. vm_compute. reflexivity. Qed.

(** ** The Orchestrator, for every environment *)

Ltac check_earlier_bound :=
  let n := fresh "n" in let i := fresh "i" in
  let Hn := fresh "Hn" in let Hlt := fresh "Hlt" in
  intros n i Hn Hlt;
  destruct n as [|[|[|n]]]; cbn in Hn, Hlt; try lia;
  injection Hn as <-; reflexivity.

(** The invocations of the three pushes: a beginning of gzip, deflate,
    br; all bound unless the last one ended unhandled. *)
Lemma run_codecs_shape env testData w :
  ∃ l,
    listens (trace (snd (run_codecs env testData w))) = listens (trace w) ++ l ∧
    codec_of <$> l = take (length l) ["gzip"; "deflate"; "br"] ∧
    (1 ≤ length l ≤ 3)%nat ∧
    earlier_bound l ∧
    match fst (run_codecs env testData w) with
    | Ok _ => length l = 3%nat
    | Throw _ => True
    | Unhandled _ => ∃ i, last l = Some i ∧ i.2 = false
    end.
Proof.
  unfold run_codecs, mbind, M_bind, bind, mret, M_ret, ret.
  pose proof (testCompression_listen_flag env "gzip" testData w) as L1.
  destruct (testCompression env "gzip" testData w) as [[r1|e|e] w1];
    cbn [fst snd] in *.
  2: { eexists [_]. split; [exact L1 |]. cbn.
       repeat split; auto; check_earlier_bound. }
  2: { eexists [_]. split; [exact L1 |]. cbn.
       repeat split; eauto; check_earlier_bound. }
  pose proof (testCompression_listen_flag env "deflate" testData w1) as L2.
  destruct (testCompression env "deflate" testData w1) as [[r2|e|e] w2];
    cbn [fst snd] in *; rewrite L1, <- app_assoc in L2.
  2: { eexists [_; _]. split; [exact L2 |]. cbn.
       repeat split; auto; check_earlier_bound. }
  2: { eexists [_; _]. split; [exact L2 |]. cbn.
       repeat split; eauto; check_earlier_bound. }
  pose proof (testCompression_listen_flag env "br" testData w2) as L3.
  destruct (testCompression env "br" testData w2) as [[r3|e|e] w3];
    cbn [fst snd] in *; rewrite L2, <- app_assoc in L3.
  - eexists [_; _; _]. split; [exact L3 |]. cbn.
    repeat split; auto; check_earlier_bound.
  - eexists [_; _; _]. split; [exact L3 |]. cbn.
    repeat split; auto; check_earlier_bound.
  - eexists [_; _; _]. split; [exact L3 |]. cbn.
    repeat split; eauto; check_earlier_bound.
Qed.

Lemma console_log_listens args w :
  listens (trace (snd (console_log args w))) = listens (trace w).
Proof.
  unfold console_log, emit; cbn [snd trace]. rewrite listens_app. cbn.
  now rewrite app_nil_r.
Qed.

(** The invocations of a whole run, and how the run ends. *)
Lemma compareCompressions_shape env w :
  ∃ l,
    listens (trace (snd (compareCompressions env w))) = listens (trace w) ++ l ∧
    codec_of <$> l = take (length l) ["gzip"; "deflate"; "br"] ∧
    (1 ≤ length l ≤ 3)%nat ∧
    earlier_bound l ∧
    match fst (compareCompressions env w) with
    | Ok _ => True
    | Throw _ => False
    | Unhandled _ => ∃ i, last l = Some i ∧ i.2 = false
    end.
Proof.
  rewrite compareCompressions_unfold.
  destruct (fetchTestData_total env (snd (console_log ["Fetching large test data..."] w)))
    as (d & w1 & -> & Hl1 & _ & _).
  rewrite console_log_listens in Hl1.
  rewrite compare_with_unfold.
  destruct (run_codecs_shape env d (batch_start d w1))
    as (l & Hl & Hcodecs & Hlen & Hearlier & Hend).
  destruct (batch_start_effects d w1) as (Hl0 & _).
  rewrite Hl0, Hl1 in Hl.
  exists l.
  destruct (run_codecs env d (batch_start d w1)) as [[results | e | e] w'];
    cbn [fst snd] in *.
  - unfold console_log, console_table, emit, mbind, M_bind, bind; cbn [fst snd trace].
    rewrite <- !app_assoc, listens_app, Hl. cbn. rewrite app_nil_r.
    repeat split; tauto.
  - unfold console_error, emit; cbn [fst snd trace].
    rewrite listens_app, Hl. cbn. rewrite app_nil_r. repeat split; tauto.
  - repeat split; tauto.
Qed.

(** X17.  [compareCompressions] never rejects: a failed request is
    caught and reported, so the call resolves.  The one way it does not
    resolve is a failed bind, in the invocation made last. *)
Theorem compareCompressions_never_rejects env w :
  match fst (compareCompressions env w) with
  | Ok _ => True
  | Throw _ => False
  | Unhandled _ =>
      ∃ i, last (listens (trace (snd (compareCompressions env w)))) = Some i ∧
           i.2 = false
  end.
Proof.
  destruct (compareCompressions_shape env w) as (l & Hl & _ & _ & _ & Hend).
  destruct (fst (compareCompressions env w)); [exact I | exact Hend |].
  destruct Hend as (i & Hlast & Hi). exists i. split; [| exact Hi].
  rewrite Hl. destruct l as [|x l _] using rev_ind; [discriminate |].
  rewrite last_snoc in Hlast. rewrite app_assoc, last_snoc. exact Hlast.
Qed.

(** X18.  Whatever happens, the codecs are tried in the order gzip,
    deflate, br without a gap: the Runner invocations of a run are the
    first one, two or three of that list. *)
Theorem compareCompressions_codec_order env w :
  ∃ l,
    listens (trace (snd (compareCompressions env w))) = listens (trace w) ++ l ∧
    codec_of <$> l = take (length l) ["gzip"; "deflate"; "br"] ∧
    (1 ≤ length l ≤ 3)%nat.
Proof.
  destruct (compareCompressions_shape env w) as (l & Hl & Hcodecs & Hlen & _).
  exists l. auto.
Qed.

(** X19.  A results table is never partial: a run prints either no
    table at all or one table of exactly three rows, and it prints a
    table only when it resolves. *)
Theorem compareCompressions_table_is_whole env w :
  tables (trace (snd (compareCompressions env w))) = tables (trace w) ∨
  ∃ r1 r2 r3,
    tables (trace (snd (compareCompressions env w))) = tables (trace w) ++ [[r1; r2; r3]] ∧
    fst (compareCompressions env w) = Ok tt.
Proof.
  rewrite compareCompressions_unfold.
  destruct (fetchTestData_total env (snd (console_log ["Fetching large test data..."] w)))
    as (d & w1 & -> & _ & Ht1 & _).
  unfold console_log at 1 in Ht1. unfold emit in Ht1; cbn [snd trace] in Ht1.
  rewrite tables_app in Ht1. cbn in Ht1. rewrite app_nil_r in Ht1.
  rewrite compare_with_unfold.
  destruct (run_codecs_effects env d (batch_start d w1))
    as (l & _ & _ & _ & _ & Ht & _ & Hok).
  destruct (batch_start_effects d w1) as (_ & Ht0 & _).
  rewrite Ht0, Ht1 in Ht.
  destruct (run_codecs env d (batch_start d w1)) as [[results | e | e] w'];
    cbn [fst snd] in *.
  - right. destruct (Hok results eq_refl) as (_ & Hlen & _).
    destruct results as [|r1 [|r2 [|r3 [|r4 rest]]]]; try discriminate Hlen.
    exists r1, r2, r3.
    unfold console_log, console_table, emit, mbind, M_bind, bind; cbn [fst snd trace].
    rewrite <- !app_assoc, tables_app, Ht. cbn. auto.
  - left. unfold console_error, emit; cbn [fst snd trace].
    rewrite tables_app, Ht. cbn. now rewrite app_nil_r.
  - left. exact Ht.
Qed.
